(** * Turn taking, endpoint detection and provider fallback of the voice call agent

    A shallow embedding of the call agent's front end
    ([frontend/src/components/CallInterface.tsx], [frontend/src/App.tsx],
    the [useVoiceAgent] hook) and of the provider selection of the back end,
    with the properties of the design specification stated and settled
    against it.

    Conventions.  Browser objects are modelled by the part of their state the
    code observes: a [MediaRecorder] by the bytes it holds and whether it is
    recording, a [WebSocket] by its ready state, the speech synthesiser by its
    queue of utterances, [setTimeout] by a list of pending callbacks with
    their deadlines.  Promises that the environment settles are inputs of the
    model (an outcome per asynchronous call).  Refs and functional state
    updates ([setCallState(prev => ...)]) act on the current value; a handler
    that reads a state variable directly reads the value of the render that
    created the handler, which the model passes in as a parameter
    ([connected] for [callState.isConnected]). *)

From Stdlib Require Import ZArith List String Ascii Bool Lia DecimalString.
From stdpp Require Import base option list gmap strings.

(** ** Turn signals of an endpoint detector *)

Inductive TurnSignal : Type :=
  | none
  | turnStarted
  | turnEnded.

(** Configuration constants of the voice activity detection, in
    milliseconds ([useVoiceAgent], "Constants"). *)
Definition SILENCE_DURATION : Z := 1500.
Definition MIN_SPEECH_DURATION : Z := 500.

(** ** The endpoint detector of [CallInterface.tsx] *)

Module CallInterface.

(** One pass of the monitoring loop sees the analyser's byte frequency data
    ([dataArray], never empty: [bin0] followed by [bins]) and, since the
    previous pass, the recorder has encoded [captured] bytes if it was
    running. *)
Record Tick : Type := mkTick {
  bin0 : Z;
  bins : list Z;
  captured : N }.

Definition silenceThreshold : Z := 25.
Definition silenceDurationFrames : nat := 15.

(** [dataArray.reduce((a, b) => a + b)] *)
Definition reduce_sum (t : Tick) : Z := fold_left Z.add (bins t) (bin0 t).

Definition dataArray_length (t : Tick) : nat := S (length (bins t)).

(** [average > silenceThreshold] with [average = sum / dataArray.length]:
    the quotient exceeds the threshold exactly when the sum exceeds the
    threshold times the length. *)
Definition isSpeechDetected (t : Tick) : bool :=
  (silenceThreshold * Z.of_nat (dataArray_length t) <? reduce_sum t)%Z.

(** The state the closure of [startListening] works on: the two refs of the
    detector, the recorder's buffer, the chunk list, the socket and what has
    been handed to it. *)
Record Listener : Type := mkListener {
  silenceCounter : nat;            (* silenceCounterRef.current *)
  isRecording : bool;              (* isRecordingRef.current *)
  recorded : N;                    (* bytes held by the MediaRecorder *)
  audioChunks : list N;            (* sizes of the chunks pushed so far *)
  wsOpen : bool;                   (* readyState === WebSocket.OPEN *)
  sent : list N;                   (* sizes of the blobs sent to the backend *)
  transcripts : list (string * string);
  frameRequested : bool            (* animationFrameRef.current is set *) }.

Definition set_counter (c : nat) (l : Listener) : Listener :=
  mkListener c (isRecording l) (recorded l) (audioChunks l) (wsOpen l)
             (sent l) (transcripts l) (frameRequested l).

Definition set_recording (r : bool) (l : Listener) : Listener :=
  mkListener (silenceCounter l) r (recorded l) (audioChunks l) (wsOpen l)
             (sent l) (transcripts l) (frameRequested l).

Definition set_recorded (n : N) (l : Listener) : Listener :=
  mkListener (silenceCounter l) (isRecording l) n (audioChunks l) (wsOpen l)
             (sent l) (transcripts l) (frameRequested l).

Definition set_chunks (cs : list N) (l : Listener) : Listener :=
  mkListener (silenceCounter l) (isRecording l) (recorded l) cs (wsOpen l)
             (sent l) (transcripts l) (frameRequested l).

Definition set_frame (b : bool) (l : Listener) : Listener :=
  mkListener (silenceCounter l) (isRecording l) (recorded l) (audioChunks l)
             (wsOpen l) (sent l) (transcripts l) b.

(** [websocketRef.current.send(audioBlob)] followed by the transcript
    placeholder. *)
Definition send_blob (blob : N) (l : Listener) : Listener :=
  mkListener (silenceCounter l) (isRecording l) (recorded l) (audioChunks l)
             (wsOpen l) (sent l ++ [blob])
             (transcripts l ++ [("You", "[Processing your speech...]")])
             (frameRequested l).

(** [mediaRecorder.ondataavailable] *)
Definition ondataavailable (size : N) (l : Listener) : Listener :=
  if (0 <? size)%N then set_chunks (audioChunks l ++ [size]) l else l.

(** [new Blob(audioChunks)]: its size is the sum of the chunks' sizes. *)
Definition blob_size (chunks : list N) : N := fold_right N.add 0%N chunks.

(** [mediaRecorder.onstop] *)
Definition onstop (l : Listener) : Listener :=
  match audioChunks l with
  | [] => l
  | _ :: _ =>
      let audioBlob := blob_size (audioChunks l) in
      let l1 := if wsOpen l then send_blob audioBlob l else l in
      set_chunks [] l1
  end.

(** [mediaRecorder.stop()]: the recorder delivers what it holds in a
    [dataavailable] event and then fires [stop]. *)
Definition mediaRecorder_stop (l : Listener) : Listener :=
  onstop (ondataavailable (recorded l) (set_recorded 0%N l)).

(** [checkAudio], one pass of the loop.  [connected] is the value the
    closure reads from [callState.isConnected]. *)
Definition checkAudio (connected : bool) (t : Tick) (l : Listener)
  : Listener * TurnSignal :=
  if negb connected then (l, none)
  else
    (* the recorder has been running since the previous pass *)
    let l := if isRecording l then set_recorded (recorded l + captured t)%N l
             else l in
    let '(l, sig) :=
      if isSpeechDetected t then
        let l := set_counter 0 l in
        if negb (isRecording l) then
          (* audioChunks = []; mediaRecorder.start(); *)
          (set_recording true (set_recorded 0%N (set_chunks [] l)), turnStarted)
        else (l, none)
      else
        ((if isRecording l then set_counter (S (silenceCounter l)) l else l),
         none) in
    let '(l, sig) :=
      if (silenceDurationFrames <=? silenceCounter l)%nat && isRecording l then
        (set_counter 0 (set_recording false (mediaRecorder_stop l)), turnEnded)
      else (l, sig) in
    (set_frame true l, sig).

(** The state [startListening] sets up before the first pass. *)
Definition startListening (ws_open : bool) (log : list (string * string))
  : Listener :=
  mkListener 0 false 0%N [] ws_open [] log false.

(** Consecutive passes of the loop one call of [startListening] starts,
    with what each pass emits.  Nothing else touches the refs in between: a
    later call of [startListening] would start a second loop on the same
    refs, with a recorder and a chunk list of its own. *)
Fixpoint passes (connected : bool) (l : Listener) (ticks : list Tick)
  : Listener * list TurnSignal :=
  match ticks with
  | [] => (l, [])
  | t :: ticks' =>
      let '(l1, sig) := checkAudio connected t l in
      let '(l2, sigs) := passes connected l1 ticks' in
      (l2, sig :: sigs)
  end.

Definition signals (connected : bool) (l : Listener) (ticks : list Tick)
  : list TurnSignal :=
  snd (passes connected l ticks).

(** *** The detector proper: counter and recording flag *)

(** What a pass does to the two refs of the detector and what it emits,
    given whether the frame is speech. *)
Definition detector_step (speech : bool) (d : nat * bool)
  : (nat * bool) * TurnSignal :=
  let '(c, r) := d in
  let '(c1, r1, sig) :=
    if speech then (if r then (0%nat, true, none) else (0%nat, true, turnStarted))
    else ((if r then S c else c), r, none) in
  if (silenceDurationFrames <=? c1)%nat && r1 then ((0%nat, false), turnEnded)
  else ((c1, r1), sig).

Fixpoint detector_run (d : nat * bool) (speech : list bool) : list TurnSignal :=
  match speech with
  | [] => []
  | b :: speech' =>
      let '(d1, sig) := detector_step b d in
      sig :: detector_run d1 speech'
  end.

Definition detector_of (l : Listener) : nat * bool :=
  (silenceCounter l, isRecording l).

(** Frame [i] completes a run of [silenceDurationFrames] silent frames that
    follows a speech frame directly. *)
Definition completes_silence (speech : list bool) (i : nat) : Prop :=
  exists k : nat,
    i = (k + silenceDurationFrames)%nat /\ speech !! k = Some true
    /\ forall j : nat, (k < j <= i)%nat -> speech !! j = Some false.

(** Frame [i] completes such a run begun before the sequence, [c] silent
    frames of it having been counted already. *)
Definition completes_counted (c : nat) (speech : list bool) (i : nat) : Prop :=
  (c + S i = silenceDurationFrames)%nat
  /\ forall j : nat, (j <= i)%nat -> speech !! j = Some false.

(** *** The component: call state and refs *)

Record CallState : Type := mkCallState {
  isConnected : bool;
  isListening : bool;
  isSpeaking : bool;
  status : string }.

Inductive ReadyState : Type := CONNECTING | OPEN | CLOSING | CLOSED.

Inductive RecordingState : Type := inactive | recording | paused.

(** A media track is live until it is stopped. *)
Inductive TrackState : Type := live | ended.

Record Component : Type := mkComponent {
  callState : CallState;
  websocketRef : option ReadyState;
  mediaRecorderRef : option RecordingState;
  streamRef : option (list TrackState);
  animationFrameRef : option N;     (* number | null *)
  requestedFrames : list N;         (* frames requested and not yet run *)
  isRecordingRef : bool }.

Definition set_callState (v : CallState) (c : Component) : Component :=
  mkComponent v (websocketRef c) (mediaRecorderRef c) (streamRef c)
              (animationFrameRef c) (requestedFrames c) (isRecordingRef c).

Definition set_websocket (v : option ReadyState) (c : Component) : Component :=
  mkComponent (callState c) v (mediaRecorderRef c) (streamRef c)
              (animationFrameRef c) (requestedFrames c) (isRecordingRef c).

Definition set_mediaRecorder (v : option RecordingState) (c : Component)
  : Component :=
  mkComponent (callState c) (websocketRef c) v (streamRef c)
              (animationFrameRef c) (requestedFrames c) (isRecordingRef c).

Definition set_stream (v : option (list TrackState)) (c : Component)
  : Component :=
  mkComponent (callState c) (websocketRef c) (mediaRecorderRef c) v
              (animationFrameRef c) (requestedFrames c) (isRecordingRef c).

Definition set_requestedFrames (v : list N) (c : Component) : Component :=
  mkComponent (callState c) (websocketRef c) (mediaRecorderRef c) (streamRef c)
              (animationFrameRef c) v (isRecordingRef c).

Definition set_isRecordingRef (v : bool) (c : Component) : Component :=
  mkComponent (callState c) (websocketRef c) (mediaRecorderRef c) (streamRef c)
              (animationFrameRef c) (requestedFrames c) v.

(** [WebSocket.close()]: an open or connecting socket starts closing. *)
Definition ws_close (r : ReadyState) : ReadyState :=
  match r with
  | CONNECTING | OPEN => CLOSING
  | CLOSING | CLOSED => r
  end.

(** [MediaRecorder.stop()]: the recorder becomes inactive.  On a recorder
    that is inactive already the call does nothing in the MediaStream
    Recording specification as it stands; browsers that follow its earlier
    text throw InvalidStateError there ([legacy]).  [None] is the exception. *)
Definition recorder_stop (legacy : bool) (r : RecordingState)
  : option RecordingState :=
  match r with
  | inactive => if legacy then None else Some inactive
  | recording | paused => Some inactive
  end.

(** [track.stop()] *)
Definition track_stop (t : TrackState) : TrackState := ended.

(** [cancelAnimationFrame(id)] *)
Definition cancelAnimationFrame (id : N) (c : Component) : Component :=
  set_requestedFrames (filter (fun f => f <> id) (requestedFrames c)) c.

(** [stopListening] *)
Definition stopListening (legacy : bool) (c : Component) : option Component :=
  let c :=
    match animationFrameRef c with
    | Some id => if (id =? 0)%N then c else cancelAnimationFrame id c
    | None => c
    end in
  match mediaRecorderRef c with
  | Some r =>
      if isRecordingRef c then
        r' ← recorder_stop legacy r;
        Some (set_isRecordingRef false (set_mediaRecorder (Some r') c))
      else Some c
  | None => Some c
  end.

(** [endCall]; an exception leaves the handler before [setCallState]. *)
Definition endCall (legacy : bool) (c : Component) : option Component :=
  c ← stopListening legacy c;
  let c :=
    match websocketRef c with
    | Some ws => set_websocket (Some (ws_close ws)) c
    | None => c
    end in
  let c :=
    match streamRef c with
    | Some tracks => set_stream (Some (map track_stop tracks)) c
    | None => c
    end in
  c ← match mediaRecorderRef c with
      | Some r =>
          r' ← recorder_stop legacy r;
          Some (set_mediaRecorder (Some r') c)
      | None => Some c
      end;
  (* setCallState(prev => ({ ...prev, ... })) overwrites every field *)
  Some (set_callState (mkCallState false false false "Call ended") c).

Definition ws_closed (r : ReadyState) : Prop := r = CLOSING \/ r = CLOSED.

(** *** Example frames *)

(** A loud frame, a quiet frame (1024 bins each, 1600 bytes recorded per
    pass), and a click: one loud frame followed by quiet ones. *)
Definition loud : Tick := mkTick 60 (repeat 60%Z 1023) 1600.
Definition quiet : Tick := mkTick 0 (repeat 0%Z 1023) 1600.
Definition click : list Tick := loud :: repeat quiet 15.

End CallInterface.

(** ** The [useVoiceAgent] hook: one conversation cycle after another *)

Module VoiceAgent.

Inductive AgentState : Type := idle | listening | processing | speaking.

Inductive MessageRole : Type := user | assistant.

Record Message : Type := mkMessage {
  role : MessageRole;
  content : string;
  timestamp : Z }.

(** [VAD_THRESHOLD = 0.02]; [average > VAD_THRESHOLD * 255] compares the mean
    of the bins with 5.1, that is ten times the sum with 51 times the
    length. *)
Definition sound_detected (bin0 : Z) (bins : list Z) : bool :=
  (51 * Z.of_nat (S (length bins)) <? 10 * fold_left Z.add bins bin0)%Z.

(** *** Strings: [trim] *)

(** A string is held as the bytes of its UTF-8 encoding.
    [String.prototype.trim] removes the code points of WhiteSpace and
    LineTerminator from both ends: U+0009 to U+000D and U+0020 (one byte
    each), U+00A0 (C2 A0), U+1680 (E1 9A 80), U+2000 to U+200A, U+2028,
    U+2029 and U+202F (E2 80 followed by 80 to 8A, A8, A9, AF), U+205F
    (E2 81 9F), U+3000 (E3 80 80) and U+FEFF (EF BB BF). *)
Definition is_space (a : ascii) : bool :=
  let n := nat_of_ascii a in
  ((9 <=? n) && (n <=? 13) || (n =? 32))%nat.

Definition is_space2 (a b : ascii) : bool :=
  ((nat_of_ascii a =? 194) && (nat_of_ascii b =? 160))%nat.

Definition is_space3 (a b c : ascii) : bool :=
  let x := nat_of_ascii a in
  let y := nat_of_ascii b in
  let z := nat_of_ascii c in
  ((x =? 225) && (y =? 154) && (z =? 128)
   || (x =? 226) && (y =? 128)
      && ((128 <=? z) && (z <=? 138) || (z =? 168) || (z =? 169) || (z =? 175))
   || (x =? 226) && (y =? 129) && (z =? 159)
   || (x =? 227) && (y =? 128) && (z =? 128)
   || (x =? 239) && (y =? 187) && (z =? 191))%nat.

Section Strip.

(** The encodings of one, two and three bytes that are white space, in the
    order in which the bytes are met. *)
Variable w1 : ascii -> bool.
Variable w2 : ascii -> ascii -> bool.
Variable w3 : ascii -> ascii -> ascii -> bool.

(** The bytes start with a white-space code point. *)
Definition starts_with_space (s : list ascii) : bool :=
  match s with
  | a :: s1 =>
      w1 a
      || match s1 with
         | b :: s2 =>
             w2 a b
             || match s2 with
                | c :: _ => w3 a b c
                | [] => false
                end
         | [] => false
         end
  | [] => false
  end.

(** The white-space code points at the start are removed. *)
Fixpoint strip (s : list ascii) : list ascii :=
  match s with
  | a :: s1 =>
      if w1 a then strip s1
      else
        match s1 with
        | b :: s2 =>
            if w2 a b then strip s2
            else
              match s2 with
              | c :: s3 => if w3 a b c then strip s3 else s
              | [] => s
              end
        | [] => s
        end
  | [] => []
  end.

End Strip.

Definition trim_start (s : list ascii) : list ascii :=
  strip is_space is_space2 is_space3 s.

(** From the end, the bytes of a code point are met last byte first. *)
Definition trim_end (s : list ascii) : list ascii :=
  rev (strip is_space (fun c b => is_space2 b c)
             (fun c b a => is_space3 a b c) (rev s)).

(** [String.prototype.trim] *)
Definition trim (s : string) : string :=
  string_of_list_ascii (trim_end (trim_start (list_ascii_of_string s))).

(** *** What the environment answers to the asynchronous calls *)

(** The speech recogniser either is missing, fails ([onerror]), or delivers
    result parts ([onresult]) and ends ([onend]). *)
Inductive Recognition : Type :=
  | Unsupported
  | RecognitionError (code : string)
  | RecognitionEnded (parts : list string).

(** [fetch('/api/chat')]: the request fails, or [data.response] is read
    (absent, or a string). *)
Inductive ChatOutcome : Type :=
  | FetchFailed (err : string)
  | ChatReplied (response : option string).

Inductive SpeechOutcome : Type :=
  | SpeechEnded      (* utterance.onend *)
  | SpeechError.     (* utterance.onerror *)

(** A settled promise. *)
Inductive Settled (A : Type) : Type :=
  | Resolved (a : A)
  | Rejected (reason : string).
Arguments Resolved {A} a.
Arguments Rejected {A} reason.

(** Everything the environment contributes to one cycle. *)
Record Cycle : Type := mkCycle {
  audioBlob : N;                  (* size of the recording *)
  recognition : Recognition;
  chat : ChatOutcome;
  speech : SpeechOutcome;
  micOk : bool;                   (* the next [startRecording] succeeds *)
  restartedAt : Z }.              (* [Date.now()] when the next cycle starts *)

Record Hook : Type := mkHook {
  state : AgentState;
  messages : list Message;
  sessionId : string;
  error : string;
  processingRef : bool;
  recorderActive : bool;          (* the MediaRecorder is recording *)
  intervalActive : bool;          (* [silenceCheckInterval] is running *)
  lastSoundTime : Z;
  transcribeRequests : list N;    (* blobs handed to [transcribeAudio] *)
  chatRequests : list string;     (* messages posted to the backend *)
  spoken : list string }.         (* utterances given to the synthesiser *)

Definition updateState (s : AgentState) (h : Hook) : Hook :=
  mkHook s (messages h) (sessionId h) (error h) (processingRef h)
         (recorderActive h) (intervalActive h) (lastSoundTime h)
         (transcribeRequests h) (chatRequests h) (spoken h).

Definition setError (e : string) (h : Hook) : Hook :=
  mkHook (state h) (messages h) (sessionId h) e (processingRef h)
         (recorderActive h) (intervalActive h) (lastSoundTime h)
         (transcribeRequests h) (chatRequests h) (spoken h).

Definition set_processingRef (b : bool) (h : Hook) : Hook :=
  mkHook (state h) (messages h) (sessionId h) (error h) b
         (recorderActive h) (intervalActive h) (lastSoundTime h)
         (transcribeRequests h) (chatRequests h) (spoken h).

Definition set_recorder (b : bool) (h : Hook) : Hook :=
  mkHook (state h) (messages h) (sessionId h) (error h) (processingRef h)
         b (intervalActive h) (lastSoundTime h)
         (transcribeRequests h) (chatRequests h) (spoken h).

Definition set_interval (b : bool) (h : Hook) : Hook :=
  mkHook (state h) (messages h) (sessionId h) (error h) (processingRef h)
         (recorderActive h) b (lastSoundTime h)
         (transcribeRequests h) (chatRequests h) (spoken h).

Definition set_lastSoundTime (t : Z) (h : Hook) : Hook :=
  mkHook (state h) (messages h) (sessionId h) (error h) (processingRef h)
         (recorderActive h) (intervalActive h) t
         (transcribeRequests h) (chatRequests h) (spoken h).

Definition log_transcribe (blob : N) (h : Hook) : Hook :=
  mkHook (state h) (messages h) (sessionId h) (error h) (processingRef h)
         (recorderActive h) (intervalActive h) (lastSoundTime h)
         (transcribeRequests h ++ [blob]) (chatRequests h) (spoken h).

Definition log_chat (text : string) (h : Hook) : Hook :=
  mkHook (state h) (messages h) (sessionId h) (error h) (processingRef h)
         (recorderActive h) (intervalActive h) (lastSoundTime h)
         (transcribeRequests h) (chatRequests h ++ [text]) (spoken h).

Definition log_speak (text : string) (h : Hook) : Hook :=
  mkHook (state h) (messages h) (sessionId h) (error h) (processingRef h)
         (recorderActive h) (intervalActive h) (lastSoundTime h)
         (transcribeRequests h) (chatRequests h) (spoken h ++ [text]).

(** [startRecording] on a hook that has been initialised: the stream
    exists (the Call button is enabled only after [initialize] has obtained
    it), so [initMicrophone], the one place that sets [error] here, is not
    called again.  A fresh recorder is created and started and the state
    becomes [listening]; [mic_ok] is whether the recorder could be created
    and started, and when it could not the function throws. *)
Definition startRecording (mic_ok : bool) (h : Hook) : option Hook :=
  if mic_ok then Some (updateState listening (set_recorder true h)) else None.

(** [stopRecording]: resolves with the recorded blob. *)
Definition stopRecording (h : Hook) : Hook := set_recorder false h.

(** [transcribeAudio]: the promise the recogniser's handlers settle.  Each
    result part is appended with a space; on [onend] an empty trimmed
    transcript rejects. *)
Definition transcribeAudio (r : Recognition) : Settled string :=
  match r with
  | Unsupported => Rejected "❌ [TRANSCRIBE] Speech Recognition API not supported"
  | RecognitionError code => Rejected ("Speech recognition error: " ++ code)
  | RecognitionEnded parts =>
      let transcript := fold_left (fun acc part => acc ++ part ++ " ") parts ""
      in
      if String.eqb (trim transcript) "" then Rejected "⚠️  [TRANSCRIBE] Empty transcription"
      else Resolved (trim transcript)
  end%string.

(** [sendMessage]: [null] without a session or when the request fails,
    otherwise [data.response]. *)
Definition sendMessage (text : string) (c : ChatOutcome) (h : Hook)
  : Hook * option string :=
  if String.eqb (sessionId h) "" then (h, None)
  else
    let h := log_chat text (updateState processing h) in
    match c with
    | FetchFailed err =>
        (setError ("❌ [CHAT] Failed to send message: " ++ err)%string h, None)
    | ChatReplied response => (h, response)
    end.

(** [speakText]: resolves [true] when the utterance ends, [false] on a
    synthesis error; the state is [idle] afterwards either way. *)
Definition speakText (text : string) (o : SpeechOutcome) (h : Hook)
  : Hook * bool :=
  let h := log_speak text (updateState speaking h) in
  match o with
  | SpeechEnded => (updateState idle h, true)
  | SpeechError => (updateState idle h, false)
  end.

(** The truthiness test [if (aiResponse)]. *)
Definition truthy (v : option string) : bool :=
  match v with
  | Some s => negb (String.eqb s "")
  | None => false
  end.

(** [startConversation] up to the first interval tick: recording starts,
    [lastSoundTime] is now, the interval is armed.  A failure of
    [startRecording] is caught and clears [processingRef]. *)
Definition startConversation (mic_ok : bool) (now : Z) (h : Hook) : Hook :=
  let h := set_processingRef true h in
  match startRecording mic_ok h with
  | Some h => set_interval true (set_lastSoundTime now h)
  | None => set_processingRef false h
  end.

(** What follows [stopRecording()] in [checkSilence]: the chain of [then]
    callbacks, for a recorder that is recording (its [stop] event resolves
    the promise).  There is no rejection handler, and no branch for a
    missing response. *)
Definition pipeline (c : Cycle) (h : Hook) : Hook :=
  let h := stopRecording h in
  let h := log_transcribe (audioBlob c) h in
  match transcribeAudio (recognition c) with
  | Rejected _ => h
  | Resolved transcript =>
      let '(h, aiResponse) := sendMessage transcript (chat c) h in
      if truthy aiResponse then
        let '(h, _) := speakText (default "" aiResponse) (speech c) h in
        let h := set_processingRef false h in
        startConversation (micOk c) (restartedAt c) h
      else h
  end.

(** [checkSilence], the interval callback, at time [now]. *)
Definition checkSilence (c : Cycle) (now : Z) (bin0 : Z) (bins : list Z)
    (h : Hook) : Hook :=
  if sound_detected bin0 bins then set_lastSoundTime now h
  else if (SILENCE_DURATION <? now - lastSoundTime h)%Z then
    (* clearInterval(silenceCheckInterval) *)
    pipeline c (set_interval false h)
  else h.

(** An interval tick: the callback runs only while the interval is armed. *)
Record IntervalTick : Type := mkIntervalTick {
  at_time : Z;
  tick_bin0 : Z;
  tick_bins : list Z;
  cycle : Cycle }.

Definition on_interval (t : IntervalTick) (h : Hook) : Hook :=
  if intervalActive h then
    checkSilence (cycle t) (at_time t) (tick_bin0 t) (tick_bins t) h
  else h.

Definition run (ticks : list IntervalTick) (h : Hook) : Hook :=
  fold_left (fun h t => on_interval t h) ticks h.

(** The hook after [initialize]. *)
Definition initialized (session : string) : Hook :=
  mkHook idle [] session "" false false false 0 [] [] [].

(** *** Example cycles *)

Definition quiet_tick (c : Cycle) (now : Z) : IntervalTick :=
  mkIntervalTick now 0 (repeat 0%Z 1023) c.

(** Sixteen quiet ticks, 100 ms apart, from 100 ms to 1600 ms. *)
Definition quiet_ticks (c : Cycle) : list IntervalTick :=
  map (fun k => quiet_tick c (100 * Z.of_nat k)) (seq 1 16).

(** A cycle in which the chat request fails. *)
Definition backend_down : Cycle :=
  mkCycle 32000 (RecognitionEnded ["I need an appointment"])
          (FetchFailed "TypeError: Failed to fetch") SpeechEnded true 20000.

(** A cycle in which the recogniser hears nothing. *)
Definition nothing_heard : Cycle :=
  mkCycle 32000 (RecognitionEnded []) (ChatReplied (Some "Hello")) SpeechEnded
          true 20000.

(** A cycle in which the synthesiser fails. *)
Definition voice_down : Cycle :=
  mkCycle 32000 (RecognitionEnded ["I need an appointment"])
          (ChatReplied (Some "Of course.")) SpeechError true 20000.

End VoiceAgent.

(** ** [App.tsx]: session initialisation and the call screen *)

Module App.

Inductive Status : Type := idle | listening | thinking | speaking | error.

(** Callbacks handed to [setTimeout]. *)
Inductive TimerCallback : Type :=
  | GreetingTimer    (* handleStartCall, 500 ms: play the greeting *)
  | ListenTimer.     (* utterance.onend, 1000 ms: start the microphone *)

Record App : Type := mkApp {
  sessionId : option string;
  status : Status;
  isInCall : bool;
  transcript : string;
  isListening : bool;
  sessionError : option string;
  isSpeakingRef : bool;
  micCapturing : bool;                 (* the voice hook is recording *)
  utterances : list string;            (* speechSynthesis: head is playing *)
  clock : Z;
  timers : list (Z * TimerCallback) }. (* pending timeouts, by deadline *)

Definition setSessionId (v : option string) (a : App) : App :=
  mkApp v (status a) (isInCall a) (transcript a) (isListening a)
        (sessionError a) (isSpeakingRef a) (micCapturing a) (utterances a)
        (clock a) (timers a).

Definition setSessionError (v : option string) (a : App) : App :=
  mkApp (sessionId a) (status a) (isInCall a) (transcript a) (isListening a)
        v (isSpeakingRef a) (micCapturing a) (utterances a)
        (clock a) (timers a).

Definition setStatus (v : Status) (a : App) : App :=
  mkApp (sessionId a) v (isInCall a) (transcript a) (isListening a)
        (sessionError a) (isSpeakingRef a) (micCapturing a) (utterances a)
        (clock a) (timers a).

Definition setIsInCall (v : bool) (a : App) : App :=
  mkApp (sessionId a) (status a) v (transcript a) (isListening a)
        (sessionError a) (isSpeakingRef a) (micCapturing a) (utterances a)
        (clock a) (timers a).

Definition setTranscript (v : string) (a : App) : App :=
  mkApp (sessionId a) (status a) (isInCall a) v (isListening a)
        (sessionError a) (isSpeakingRef a) (micCapturing a) (utterances a)
        (clock a) (timers a).

Definition setIsListening (v : bool) (a : App) : App :=
  mkApp (sessionId a) (status a) (isInCall a) (transcript a) v
        (sessionError a) (isSpeakingRef a) (micCapturing a) (utterances a)
        (clock a) (timers a).

Definition set_isSpeakingRef (v : bool) (a : App) : App :=
  mkApp (sessionId a) (status a) (isInCall a) (transcript a) (isListening a)
        (sessionError a) v (micCapturing a) (utterances a)
        (clock a) (timers a).

Definition set_mic (v : bool) (a : App) : App :=
  mkApp (sessionId a) (status a) (isInCall a) (transcript a) (isListening a)
        (sessionError a) (isSpeakingRef a) v (utterances a)
        (clock a) (timers a).

Definition set_utterances (v : list string) (a : App) : App :=
  mkApp (sessionId a) (status a) (isInCall a) (transcript a) (isListening a)
        (sessionError a) (isSpeakingRef a) (micCapturing a) v
        (clock a) (timers a).

Definition set_clock (v : Z) (a : App) : App :=
  mkApp (sessionId a) (status a) (isInCall a) (transcript a) (isListening a)
        (sessionError a) (isSpeakingRef a) (micCapturing a) (utterances a)
        v (timers a).

Definition set_timers (v : list (Z * TimerCallback)) (a : App) : App :=
  mkApp (sessionId a) (status a) (isInCall a) (transcript a) (isListening a)
        (sessionError a) (isSpeakingRef a) (micCapturing a) (utterances a)
        (clock a) v.

(** The component as first rendered. *)
Definition mounted : App :=
  mkApp None idle false "" false None false false [] 0 [].

(** *** Session initialisation *)

(** What [fetch(`${apiUrl}/session/new`)] and [response.json()] come to: the
    request rejects; or a response arrives with its [ok] flag and status, and
    its body either fails to parse or carries a [session_id] field (absent,
    or a string). *)
Inductive Body : Type :=
  | BadJson (message : string)
  | Json (session_id : option string).

Inductive SessionResponse : Type :=
  | NetworkError (message : option string)   (* [None]: not an [Error] *)
  | HttpResponse (ok : bool) (code : Z) (body : Body).

(** Truthiness of a string-or-null value. *)
Definition truthy (v : option string) : bool :=
  match v with
  | Some s => negb (String.eqb s "")
  | None => false
  end.

(** A number in a template literal. *)
Definition show (z : Z) : string := NilZero.string_of_int (Z.to_int z).

(** The [catch] block of [initializeSession]. *)
Definition use_fallback (thrown : option string) (now : Z) (a : App) : App :=
  let a := setSessionError (Some (default "Unknown error" thrown)) a in
  let fallbackId := ("fallback-" ++ show now)%string in
  setSessionId (Some fallbackId) a.

(** [initializeSession]; [now] is [Date.now()] in the [catch] block. *)
Definition initializeSession (r : SessionResponse) (now : Z) (a : App) : App :=
  match r with
  | NetworkError message => use_fallback message now a
  | HttpResponse ok code body =>
      if negb ok then
        use_fallback (Some ("HTTP error! status: " ++ show code)%string) now a
      else
        match body with
        | BadJson message => use_fallback (Some message) now a
        | Json session_id =>
            if truthy session_id then
              setSessionError None (setSessionId session_id a)
            else use_fallback (Some "No session_id in response") now a
        end
  end.

(** The session could not be created: the request failed, the status was
    not ok, or the response carries no session id. *)
Definition creation_failed (r : SessionResponse) : bool :=
  match r with
  | NetworkError _ => true
  | HttpResponse ok _ body =>
      negb ok ||
      match body with
      | BadJson _ => true
      | Json session_id => negb (truthy session_id)
      end
  end.

(** [disabled] is [!sessionId] on the Call button. *)
Definition call_button_disabled (a : App) : bool := negb (truthy (sessionId a)).

(** *** Speech synthesis and timers *)

(** [setTimeout(cb, delay)]: pending callbacks are kept in deadline order,
    a new one after those due at the same time. *)
Fixpoint insert_timer (deadline : Z) (cb : TimerCallback)
    (ts : list (Z * TimerCallback)) : list (Z * TimerCallback) :=
  match ts with
  | [] => [(deadline, cb)]
  | (d, c) :: ts' =>
      if (d <=? deadline)%Z then (d, c) :: insert_timer deadline cb ts'
      else (deadline, cb) :: ts
  end.

Definition setTimeout (cb : TimerCallback) (delay : Z) (a : App) : App :=
  set_timers (insert_timer (clock a + delay) cb (timers a)) a.

(** Modelled from the spec: the voice hook of this screen
    ([useVoiceAgent(sessionId, handleResponseReceived, setStatus)]) is not
    among the sources.  Of its two functions the model keeps which was called
    last: [startVoiceCall] opens the capture of the caller's microphone
    ("Starting microphone"), [stopVoiceCall] closes it ("Stopping microphone
    to prevent echo"). *)
Definition startVoiceCall (a : App) : App := set_mic true a.

Definition stopVoiceCall (a : App) : App := set_mic false a.

(** [window.speechSynthesis.speak(utterance)]: the utterance joins the
    queue; when it is the one to play, [onstart] sets the status. *)
Definition speak (text : string) (a : App) : App :=
  let starts := match utterances a with [] => true | _ => false end in
  let a := set_utterances (utterances a ++ [text]) a in
  if starts then setStatus speaking a else a.

(** [window.speechSynthesis.cancel()]: the queue is emptied; the utterances
    removed do not end, so [onend] does not run. *)
Definition cancel (a : App) : App := set_utterances [] a.

Definition playVoiceResponse (text : string) (a : App) : App :=
  speak text (set_isSpeakingRef true a).

(** [utterance.onend] *)
Definition onend (a : App) : App :=
  setTimeout ListenTimer 1000 (set_isSpeakingRef false a).

Definition greeting : string :=
  "Hello! I'm your medical clinic AI assistant. I can help you with information about our services, book appointments, and answer health-related questions. How can I help you today?".

Definition run_timer (cb : TimerCallback) (a : App) : App :=
  match cb with
  | GreetingTimer => playVoiceResponse greeting (setTranscript greeting a)
  | ListenTimer => startVoiceCall (setIsListening true (setStatus listening a))
  end.

(** *** Handlers *)

Definition handleResponseReceived (responseText : string) (a : App) : App :=
  let a := stopVoiceCall a in
  let a := setIsListening false a in
  let a := setTranscript responseText a in
  let a := setStatus speaking a in
  playVoiceResponse responseText a.

Definition handleStartCall (a : App) : App :=
  if negb (truthy (sessionId a)) then a
  else
    let a := setIsInCall true a in
    let a := setTranscript "" a in
    let a := setStatus idle a in
    setTimeout GreetingTimer 500 a.

Definition handleEndCall (a : App) : App :=
  let a := stopVoiceCall a in
  let a := cancel a in
  let a := setIsInCall false a in
  let a := setTranscript "" a in
  let a := setStatus idle a in
  let a := setIsListening false a in
  set_isSpeakingRef false a.

Definition handleStopListening (a : App) : App :=
  setStatus thinking (setIsListening false (stopVoiceCall a)).

(** *** Events *)

Inductive Event : Type :=
  | Elapse (ms : Z)                    (* time passes *)
  | ClickCall                          (* the Call Clinic button *)
  | ClickEndCall                       (* End Call, or the emergency button *)
  | ClickStopListening
  | UtteranceEnd                       (* the utterance playing finishes *)
  | ResponseReceived (text : string).  (* the hook delivers the AI response *)

(** The timeouts due at the current time run, earliest first. *)
Fixpoint fire_due (fuel : list (Z * TimerCallback)) (a : App) : App :=
  match fuel with
  | [] => a
  | _ :: fuel' =>
      match timers a with
      | (d, cb) :: rest =>
          if (d <=? clock a)%Z then fire_due fuel' (run_timer cb (set_timers rest a))
          else a
      | [] => a
      end
  end.

Definition elapse (ms : Z) (a : App) : App :=
  let a := set_clock (clock a + Z.max 0 ms) a in
  fire_due (timers a) a.

(** The utterance at the head of the queue ends: [onend] runs and the next
    one, if any, starts. *)
Definition utterance_end (a : App) : App :=
  match utterances a with
  | [] => a
  | _ :: rest =>
      let a := onend (set_utterances rest a) in
      match rest with
      | [] => a
      | _ :: _ => setStatus speaking a
      end
  end.

(** One event.  A button acts only while it is rendered: Call Clinic on
    the idle screen, the others on the call screen. *)
Definition step (e : Event) (a : App) : App :=
  match e with
  | Elapse ms => elapse ms a
  | ClickCall =>
      if isInCall a || call_button_disabled a then a else handleStartCall a
  | ClickEndCall => if isInCall a then handleEndCall a else a
  | ClickStopListening =>
      if isInCall a && isListening a then handleStopListening a else a
  | UtteranceEnd => utterance_end a
  | ResponseReceived text => handleResponseReceived text a
  end.

Definition run (events : list Event) (a : App) : App :=
  fold_left (fun a e => step e a) events a.

(** Agent audio is playing. *)
Definition playing (a : App) : bool :=
  match utterances a with [] => false | _ :: _ => true end.

(** *** An example run *)

(** The backend is unreachable at start-up. *)
Definition ready : App :=
  initializeSession (NetworkError (Some "Failed to fetch")) 1767400000000 mounted.

(** The caller starts a call and hears the greeting to its end; within the
    second that follows, the call is ended and started again. *)
Definition call_again : list Event :=
  [ ClickCall; Elapse 500; Elapse 9000; UtteranceEnd;
    Elapse 100; ClickEndCall;
    Elapse 100; ClickCall;
    Elapse 500; Elapse 300 ].

End App.

(** ** Provider selection and fallback *)

Module Router.

(** Modelled from the spec: the three capabilities a provider may implement
    (section 3, ProviderConfig). *)
Inductive Capability : Type := transcription | reasoning | synthesis.

Definition ProviderId : Type := string.

(** *** Provider detection of the back end ([clinic_agent.py]) *)

(** [os.getenv] *)
Definition getenv (environ : gmap string string) (name : string)
  : option string := environ !! name.

(** Truth value of [os.getenv(...)]: set and not empty. *)
Definition is_set (v : option string) : bool :=
  match v with
  | Some s => negb (String.eqb s "")
  | None => false
  end.

Inductive PyResult (A : Type) : Type :=
  | Return (a : A)
  | Raise (exception : string) (message : string).
Arguments Return {A} a.
Arguments Raise {A} exception message.

Definition _determine_provider (environ : gmap string string)
  : PyResult ProviderId :=
  if is_set (getenv environ "OLLAMA_BASE_URL") then Return "ollama"
  else if is_set (getenv environ "GROQ_API_KEY") then Return "groq"
  else if is_set (getenv environ "OPENAI_API_KEY") then Return "openai"
  else Raise "ValueError" "Set OLLAMA_BASE_URL, GROQ_API_KEY, or OPENAI_API_KEY".

(** *** The router *)

(** Modelled from the spec: the ways an attempt fails (section 4.2): timeout,
    transport error, empty or invalid result. *)
Inductive ProviderError : Type :=
  | Timeout
  | TransportError (message : string)
  | EmptyResult
  | InvalidResult (message : string).

(** Modelled from the spec: what one bounded call to a provider comes to (the
    providers and their transport are not among the sources): a response, a
    timeout, a transport error, or an invalid result. *)
Inductive CallResult (Response : Type) : Type :=
  | Returned (response : Response)
  | TimedOut
  | TransportFailed (message : string)
  | Invalid (message : string).
Arguments Returned {Response} response.
Arguments TimedOut {Response}.
Arguments TransportFailed {Response} message.
Arguments Invalid {Response} message.

(** Modelled from the spec: [ProviderFailure{capability, triedProviders,
    lastError}] of section 4.2. *)
Record ProviderFailure : Type := mkProviderFailure {
  capability : Capability;
  triedProviders : list ProviderId;
  lastError : option ProviderError }.

(** Modelled from the spec: [ProviderConfig], an ordered priority list of
    provider identifiers per capability (section 3). *)
Record ProviderConfig : Type := mkProviderConfig {
  priorityList : Capability -> list ProviderId }.

(** Modelled from the spec: the router's record of one [invoke]: the
    providers attempted and the failures recorded, both in order. *)
Record Journal : Type := mkJournal {
  attempted : list ProviderId;
  failures : list (ProviderId * ProviderError) }.

Definition empty_journal : Journal := mkJournal [] [].

Definition record_attempt (p : ProviderId) (j : Journal) : Journal :=
  mkJournal (attempted j ++ [p]) (failures j).

Definition record_failure (p : ProviderId) (e : ProviderError) (j : Journal)
  : Journal :=
  mkJournal (attempted j) (failures j ++ [(p, e)]).

Section Invoke.

Context {Request Response : Type}.

(** The emptiness test of a capability's responses, and the providers
    behind their narrow interface. *)
Variable semantically_empty : Response -> bool.
Variable call : ProviderId -> Request -> CallResult Response.

(** Modelled from the spec: one attempt (section 4.2): a timeout, a transport
    error, and an empty or invalid result are failures. *)
Definition attempt (p : ProviderId) (req : Request)
  : Response + ProviderError :=
  match call p req with
  | Returned r => if semantically_empty r then inr EmptyResult else inl r
  | TimedOut => inr Timeout
  | TransportFailed m => inr (TransportError m)
  | Invalid m => inr (InvalidResult m)
  end.

(** Modelled from the spec: the fallback loop of [invoke] (section 4.2): the
    providers are attempted in list order; a success returns at once; a
    failure is recorded and the next provider is attempted; an exhausted
    list returns [ProviderFailure]. *)
Fixpoint try_providers (cap : Capability) (ps : list ProviderId)
    (req : Request) (j : Journal)
  : (Response + ProviderFailure) * Journal :=
  match ps with
  | [] =>
      (inr (mkProviderFailure cap (attempted j) (last (map snd (failures j)))), j)
  | p :: ps' =>
      let j := record_attempt p j in
      match attempt p req with
      | inl r => (inl r, j)
      | inr e => try_providers cap ps' req (record_failure p e j)
      end
  end.

(** Modelled from the spec: [invoke(capability, request)]. *)
Definition invoke (cfg : ProviderConfig) (cap : Capability) (req : Request)
  : (Response + ProviderFailure) * Journal :=
  try_providers cap (priorityList cfg cap) req empty_journal.

End Invoke.

(** The transcription providers seen through [transcribeAudio]: a
    recogniser's outcome as a provider call, and the emptiness test of its
    [onend] handler. *)
Definition empty_transcript (s : string) : bool :=
  String.eqb (VoiceAgent.trim s) "".

Definition recognition_call (r : VoiceAgent.Recognition) : CallResult string :=
  match r with
  | VoiceAgent.Unsupported => Invalid "Speech Recognition API not supported"
  | VoiceAgent.RecognitionError code => TransportFailed code
  | VoiceAgent.RecognitionEnded parts =>
      Returned (fold_left (fun acc part => acc ++ part ++ " ") parts "")%string
  end.

(** The detection order of [_determine_provider], as a priority list, and a
    provider that answers when its variable is set. *)
Definition detection_order : list ProviderId := ["ollama"; "groq"; "openai"].

Definition variable_of (p : ProviderId) : string :=
  if String.eqb p "ollama" then "OLLAMA_BASE_URL"
  else if String.eqb p "groq" then "GROQ_API_KEY"
  else "OPENAI_API_KEY".

Definition configured (environ : gmap string string) (p : ProviderId)
    (_ : unit) : CallResult ProviderId :=
  if is_set (getenv environ (variable_of p)) then Returned p
  else Invalid "not configured".

(** *** Example providers *)

Definition three_providers : ProviderConfig :=
  mkProviderConfig (fun _ => ["A"; "B"; "C"]).

(** [A] times out, [B] is unreachable, [C] answers. *)
Definition third_answers (p : ProviderId) (audio : N) : CallResult string :=
  if String.eqb p "A" then TimedOut
  else if String.eqb p "B" then TransportFailed "connection refused"
  else Returned "I need an appointment".

(** [A] hears nothing, the others answer. *)
Definition first_hears_nothing (p : ProviderId) (audio : N) : CallResult string :=
  if String.eqb p "A" then Returned "   "
  else Returned "I need an appointment".

(** No provider can be reached. *)
Definition all_down (p : ProviderId) (audio : N) : CallResult string :=
  TransportFailed "connection refused".

End Router.

(** ** [CallInterface.tsx]: the handlers around the detector *)

Module CallInterfaceHandlers.
Import CallInterface.

(** The component as first rendered. *)
Definition initial : Component :=
  mkComponent (mkCallState false false false "Ready to call")
              None None None None [] false.

Definition set_status (s : string) (prev : CallState) : CallState :=
  mkCallState (isConnected prev) (isListening prev) (isSpeaking prev) s.

(** [setCallState(prev => ...)] *)
Definition setCallState (f : CallState -> CallState) (c : Component)
  : Component :=
  set_callState (f (callState c)) c.

Definition set_animationFrame (id : N) (c : Component) : Component :=
  mkComponent (callState c) (websocketRef c) (mediaRecorderRef c) (streamRef c)
              (Some id) (requestedFrames c ++ [id]) (isRecordingRef c).

(** How [startCall] goes: the microphone is refused, or it is granted (with
    the tracks of the stream) and the socket is created. *)
Inductive StartOutcome : Type :=
  | MicDenied
  | Started (tracks : list TrackState).

(** [startCall] *)
Definition startCall (o : StartOutcome) (c : Component) : Component :=
  let c := setCallState (set_status "Connecting to clinic...") c in
  match o with
  | Started tracks =>
      set_websocket (Some CONNECTING) (set_stream (Some tracks) c)
  | MicDenied =>
      setCallState (set_status "Error: Microphone access denied") c
  end.

(** The socket becomes [r] (the browser's part of an event). *)
Definition socket_becomes (r : ReadyState) (c : Component) : Component :=
  match websocketRef c with
  | Some _ => set_websocket (Some r) c
  | None => c
  end.

(** [ws.onopen] *)
Definition ws_onopen (c : Component) : Component :=
  setCallState
    (fun prev =>
       mkCallState true (isListening prev) (isSpeaking prev)
                   "Connected. Listening to clinic agent greeting...")
    (socket_becomes OPEN c).

(** [ws.onmessage]: a [Blob] is played and the agent is speaking; anything
    else is ignored. *)
Definition ws_onmessage (is_blob : bool) (c : Component) : Component :=
  if is_blob then
    setCallState
      (fun prev =>
         mkCallState (isConnected prev) false true "Clinic agent speaking...")
      c
  else c.

(** [ws.onerror] *)
Definition ws_onerror (c : Component) : Component :=
  setCallState (set_status "Connection error. Please try again.") c.

(** [ws.onclose]; [stopListening] with a recorder whose [stop] does not
    throw. *)
Definition ws_onclose (c : Component) : Component :=
  let c :=
    setCallState
      (fun prev => mkCallState false false (isSpeaking prev) "Call ended")
      (socket_becomes CLOSED c) in
  default c (stopListening false c).

(** [startListening], with the first pass of [checkAudio] it runs:
    [connected] is the value the closure reads from
    [callState.isConnected], [t] what the analyser shows, [frame] the
    identifier [requestAnimationFrame] returns. *)
Definition startListening (connected : bool) (t : Tick) (frame : N)
    (c : Component) : Component :=
  match streamRef c, websocketRef c with
  | Some _, Some _ =>
      let c :=
        setCallState
          (fun prev =>
             mkCallState (isConnected prev) true (isSpeaking prev) "Listening...")
          c in
      let c := set_isRecordingRef false (set_mediaRecorder (Some inactive) c) in
      if connected then
        let c :=
          if isSpeechDetected t then
            set_isRecordingRef true (set_mediaRecorder (Some recording) c)
          else c in
        set_animationFrame frame c
      else c
  | _, _ => c
  end.

(** [audio.onended] of [playAudio]. *)
Definition audio_onended (connected : bool) (t : Tick) (frame : N)
    (c : Component) : Component :=
  if connected then
    startListening connected t frame
      (setCallState
         (fun prev =>
            mkCallState (isConnected prev) (isListening prev) false "Listening...")
         c)
  else c.

(** What happens to the component. *)
Inductive Handler : Type :=
  | StartCall (o : StartOutcome)
  | WsOpen
  | WsMessage (is_blob : bool)
  | WsError
  | WsClose
  | AudioEnded (connected : bool) (t : Tick) (frame : N)
  | EndCall.

Definition handle (e : Handler) (c : Component) : Component :=
  match e with
  | StartCall o => startCall o c
  | WsOpen => ws_onopen c
  | WsMessage is_blob => ws_onmessage is_blob c
  | WsError => ws_onerror c
  | WsClose => ws_onclose c
  | AudioEnded connected t frame => audio_onended connected t frame c
  | EndCall => default c (endCall false c)
  end.

Definition run (events : list Handler) (c : Component) : Component :=
  fold_left (fun c e => handle e c) events c.

(** The flags of the call state agree with each other and with the refs:
    while listening the agent is not speaking, and a stream and a socket
    exist. *)
Definition flags_agree (c : Component) : Prop :=
  isListening (callState c) = true ->
  isSpeaking (callState c) = false
  /\ is_Some (streamRef c) /\ is_Some (websocketRef c).

(** A call up to the first time the caller may speak. *)
Definition greeting_heard : list Handler :=
  [ StartCall (Started [live]); WsOpen; WsMessage true;
    AudioEnded true quiet 1 ].

(** *** The detector's output, seen as a whole *)

(** Turn signals are bracketed: a turn starts only when none is open and
    ends only when one is. *)
Fixpoint bracketed (open : bool) (sigs : list TurnSignal) : Prop :=
  match sigs with
  | [] => True
  | none :: rest => bracketed open rest
  | turnStarted :: rest => open = false /\ bracketed true rest
  | turnEnded :: rest => open = true /\ bracketed false rest
  end.

(** The number of [turnEnded] signals. *)
Fixpoint count_ended (sigs : list TurnSignal) : nat :=
  match sigs with
  | [] => 0
  | turnEnded :: rest => S (count_ended rest)
  | _ :: rest => count_ended rest
  end.

(** Between two passes: the counter is below the threshold; an idle
    detector has a zero counter and an empty recorder; no chunk is left
    over. *)
Definition tidy (l : Listener) : Prop :=
  (silenceCounter l < silenceDurationFrames)%nat
  /\ (isRecording l = false -> silenceCounter l = 0%nat /\ recorded l = 0%N)
  /\ audioChunks l = [].

End CallInterfaceHandlers.

(** ** [CallInterface.tsx]: the component in the page *)

Module CallInterfacePage.
Import CallInterface CallInterfaceHandlers.

(** The component together with the render its handlers come from.
    [startCall] and everything it installs ([ws.onmessage], hence
    [playAudio], its [audio.onended], and [startListening] with its
    [checkAudio]) are closures of the render in which Call Clinic was
    clicked: [closure] is the [callState] of that render, the value those
    functions read as [callState].  (The handlers of an earlier call keep
    the render of their own click, in which Call Clinic was rendered as
    well; the model keeps that of the latest one.) *)
Record Page : Type := mkPage {
  component : Component;
  closure : CallState }.

(** What happens in the page. *)
Inductive PageEvent : Type :=
  | CallClicked (o : StartOutcome)
  | EndCallClicked
  | SocketOpens
  | SocketMessage (is_blob : bool)
  | SocketError
  | SocketCloses
  | PlaybackEnds (t : Tick) (frame : N).

(** One event.  Call Clinic is rendered while [!callState.isConnected] and
    End Call otherwise; the end of the playback runs [audio.onended] with
    the state its closure holds. *)
Definition on_page (e : PageEvent) (p : Page) : Page :=
  match e with
  | CallClicked o =>
      if isConnected (callState (component p)) then p
      else mkPage (handle (StartCall o) (component p)) (callState (component p))
  | EndCallClicked =>
      if isConnected (callState (component p)) then
        mkPage (handle EndCall (component p)) (closure p)
      else p
  | SocketOpens => mkPage (handle WsOpen (component p)) (closure p)
  | SocketMessage is_blob =>
      mkPage (handle (WsMessage is_blob) (component p)) (closure p)
  | SocketError => mkPage (handle WsError (component p)) (closure p)
  | SocketCloses => mkPage (handle WsClose (component p)) (closure p)
  | PlaybackEnds t frame =>
      mkPage (handle (AudioEnded (isConnected (closure p)) t frame) (component p))
             (closure p)
  end.

Definition browse (events : list PageEvent) (p : Page) : Page :=
  fold_left (fun p e => on_page e p) events p.

(** The page as loaded. *)
Definition loaded : Page := mkPage initial (callState initial).

(** Nothing of the listening loop exists: no recorder, no frame requested,
    the detector's flag and the Listening indicator off. *)
Definition never_listened (c : Component) : Prop :=
  isListening (callState c) = false
  /\ mediaRecorderRef c = None
  /\ animationFrameRef c = None
  /\ requestedFrames c = []
  /\ isRecordingRef c = false.

(** A call in which the agent's greeting is heard to its end and the caller
    then speaks. *)
Definition greeted : list PageEvent :=
  [ CallClicked (Started [live]); SocketOpens; SocketMessage true;
    PlaybackEnds loud 1 ].

End CallInterfacePage.

(** ** [App.tsx] (first revision): the console shown in the page *)

Module ConsolePanel.

(** [Array.prototype.slice(-n)]: the last [n] elements. *)
Definition slice_last {A : Type} (n : nat) (l : list A) : list A :=
  drop (length l - n) l.

(** [args.join(' ')] *)
Definition join (args : list string) : string := String.concat " " args.

Inductive Level : Type := Log | Error | Warn.

Record Call : Type := mkCall {
  level : Level;
  args : list string }.

(** The message a console call shows. *)
Definition message_of (c : Call) : string :=
  match level c with
  | Log => join (args c)
  | Error => "❌ " ++ join (args c)
  | Warn => "⚠️  " ++ join (args c)
  end%string.

(** [setLog((prev) => [...prev.slice(-50), message])] *)
Definition push (message : string) (prev : list string) : list string :=
  slice_last 50 prev ++ [message].

(** The overridden [console.log], [console.error] and [console.warn]. *)
Definition console (c : Call) (log : list string) : list string :=
  push (message_of c) log.

Definition run (calls : list Call) (log : list string) : list string :=
  fold_left (fun log c => console c log) calls log.

End ConsolePanel.

(** ** [useVoiceAgent]: runs of the silence check *)

Module VoiceAgentRuns.
Import VoiceAgent.

Definition has_sound (t : IntervalTick) : bool :=
  sound_detected (tick_bin0 t) (tick_bins t).

(** The time of the most recent tick with sound, [t0] if there is none. *)
Definition last_sound (t0 : Z) (ticks : list IntervalTick) : Z :=
  fold_left (fun last t => if has_sound t then at_time t else last) ticks t0.

(** No silent tick of the sequence comes later than SILENCE_DURATION after
    the most recent sound ([t0] before the first). *)
Fixpoint pauses_within (t0 : Z) (ticks : list IntervalTick) : Prop :=
  match ticks with
  | [] => True
  | t :: ticks' =>
      if has_sound t then pauses_within (at_time t) ticks'
      else (at_time t - t0 <= SILENCE_DURATION)%Z /\ pauses_within t0 ticks'
  end.

(** *** Turn signals of the silence check *)

(** [setInterval(checkSilence, 100)]: the period of the silence check, in
    milliseconds. *)
Definition tick_period : Z := 100.

(** Sound in a tick sequence, in milliseconds: each tick with sound stands
    for one period of it. *)
Definition sound_duration (ticks : list IntervalTick) : Z :=
  (tick_period * Z.of_nat (length (filter (fun t => has_sound t = true) ticks)))%Z.

(** What a tick signals, read off the hook: the tick at which a recording is
    handed to [transcribeAudio] ends the turn. *)
Definition turn_signal (t : IntervalTick) (h : Hook) : TurnSignal :=
  if (length (transcribeRequests h)
      <? length (transcribeRequests (on_interval t h)))%nat
  then turnEnded else none.

Fixpoint signals (ticks : list IntervalTick) (h : Hook) : list TurnSignal :=
  match ticks with
  | [] => []
  | t :: ticks' => turn_signal t h :: signals ticks' (on_interval t h)
  end.

(** *** The hook and the page *)

(** What reaches the hook in the course of a conversation: a tick of its
    silence check, or a call of the exported [stopRecording] (End Call in
    the first revision of [App.tsx]). *)
Inductive HookEvent : Type :=
  | IntervalFires (t : IntervalTick)
  | StopRecordingCalled.

(** [checkSilence] once the recorder has been stopped from outside:
    [stop()] on an inactive recorder fires no [stop] event (or throws inside
    the promise), so the promise of [stopRecording()] never resolves and
    none of the [then] callbacks runs; the interval is cleared as usual. *)
Definition checkSilence_stopped (now : Z) (bin0 : Z) (bins : list Z) (h : Hook)
  : Hook :=
  if sound_detected bin0 bins then set_lastSoundTime now h
  else if (SILENCE_DURATION <? now - lastSoundTime h)%Z then set_interval false h
  else h.

Definition on_event (e : HookEvent) (h : Hook) : Hook :=
  match e with
  | IntervalFires t =>
      if intervalActive h && negb (recorderActive h) then
        checkSilence_stopped (at_time t) (tick_bin0 t) (tick_bins t) h
      else on_interval t h
  | StopRecordingCalled => stopRecording h
  end.

Definition drive (events : list HookEvent) (h : Hook) : Hook :=
  fold_left (fun h e => on_event e h) events h.

(** The requests of a hook are in step: no request to the backend without a
    transcription, no utterance without a request; the recorder runs only
    while the silence check is armed, and while that is armed the hook is
    listening. *)
Definition in_step (h : Hook) : Prop :=
  (length (spoken h) <= length (chatRequests h))%nat
  /\ (length (chatRequests h) <= length (transcribeRequests h))%nat
  /\ (recorderActive h = true -> intervalActive h = true)
  /\ (intervalActive h = true -> state h = listening /\ processingRef h = true).


(** *** Example ticks *)

Definition sound_tick (c : Cycle) (now : Z) : IntervalTick :=
  mkIntervalTick now 60 (repeat 60%Z 1023) c.

(** A cycle in which everything works. *)
Definition answered : Cycle :=
  mkCycle 32000 (RecognitionEnded ["I need an appointment"])
          (ChatReplied (Some "Which day suits you?")) SpeechEnded true 20000.

(** Half a second of speech: five ticks with sound, 100 ms apart, from
    100 to 500 ms. *)
Definition half_second_of_speech : list IntervalTick :=
  map (fun k => sound_tick answered (100 * Z.of_nat k)) (seq 1 5).

(** Silence that reaches SILENCE_DURATION and no more: the fifteen ticks
    that follow, from 600 to 2000 ms, without sound. *)
Definition threshold_of_silence : list IntervalTick :=
  map (fun k => quiet_tick answered (100 * Z.of_nat k)) (seq 6 15).

Definition speech_then_silence : list IntervalTick :=
  half_second_of_speech ++ threshold_of_silence.

(** A run of silent ticks, in milliseconds. *)
Definition silence_duration (ticks : list IntervalTick) : Z :=
  (tick_period * Z.of_nat (length ticks))%Z.

(** A cough: one tick with sound, then 1.6 s without. *)
Definition cough : list IntervalTick :=
  sound_tick nothing_heard 100
  :: map (fun k => quiet_tick nothing_heard (100 * Z.of_nat k)) (seq 2 16).

(** Result parts with a no-break space (U+00A0) and a tab in front and a
    line separator (U+2028) behind. *)
Definition heard : list string :=
  [ String (ascii_of_nat 194) (String (ascii_of_nat 160)
      (String (ascii_of_nat 9) "I need"));
    "an appointment"
    ++ String (ascii_of_nat 226) (String (ascii_of_nat 128)
         (String (ascii_of_nat 168) "")) ]%string.

End VoiceAgentRuns.

(** ** [App.tsx]: runs of the call screen *)

Module AppRuns.
Import App.





(** The session identifier the server granted, if the response has one. *)
Definition granted (r : SessionResponse) : option string :=
  match r with
  | HttpResponse _ _ (Json session_id) => session_id
  | _ => None
  end.

End AppRuns.

(** * Properties *)

Module CallInterfaceFacts.
Import CallInterface.

Lemma recorder_stop_standard (r : RecordingState) :
  recorder_stop false r = Some inactive.
Proof. destruct r; reflexivity. Qed.

Lemma filter_again (id : N) (l : list N) :
  filter (fun f => f <> id) (filter (fun f => f <> id) l)
  = filter (fun f => f <> id) l.
Proof.
  induction l as [|x l IH]; [reflexivity|].
  rewrite (filter_cons _ x l). destruct (decide (x <> id)) as [Hx|Hx].
  - rewrite filter_cons. destruct (decide (x <> id)); [|contradiction].
    rewrite IH. reflexivity.
  - exact IH.
Qed.

(** What [stopListening] leaves of each ref. *)
Lemma stopListening_eq (c : Component) :
  stopListening false c =
  Some (mkComponent
          (callState c) (websocketRef c)
          (match mediaRecorderRef c with
           | Some r => Some (if isRecordingRef c then inactive else r)
           | None => None
           end)
          (streamRef c) (animationFrameRef c)
          (match animationFrameRef c with
           | Some id =>
               if (id =? 0)%N then requestedFrames c
               else filter (fun f => f <> id) (requestedFrames c)
           | None => requestedFrames c
           end)
          (match mediaRecorderRef c with
           | Some _ => false
           | None => isRecordingRef c
           end)).
Proof.
  destruct c as [cs ws mr st af rf ir]. unfold stopListening.
  cbn [animationFrameRef mediaRecorderRef isRecordingRef callState
       websocketRef streamRef requestedFrames].
  destruct af as [id|]; [destruct (id =? 0)%N|];
    unfold cancelAnimationFrame, set_requestedFrames;
    cbn [animationFrameRef mediaRecorderRef isRecordingRef callState
         websocketRef streamRef requestedFrames];
    destruct mr as [r|]; try reflexivity;
    destruct ir; try reflexivity;
    rewrite recorder_stop_standard; reflexivity.
Qed.

(** What [endCall] leaves of each ref. *)
Lemma endCall_eq (c : Component) :
  endCall false c =
  Some (mkComponent
          (mkCallState false false false "Call ended")
          (ws_close <$> websocketRef c)
          ((fun _ => inactive) <$> mediaRecorderRef c)
          (map track_stop <$> streamRef c)
          (animationFrameRef c)
          (match animationFrameRef c with
           | Some id =>
               if (id =? 0)%N then requestedFrames c
               else filter (fun f => f <> id) (requestedFrames c)
           | None => requestedFrames c
           end)
          (match mediaRecorderRef c with
           | Some _ => false
           | None => isRecordingRef c
           end)).
Proof.
  unfold endCall. rewrite stopListening_eq. cbn [mbind option_bind].
  destruct c as [cs ws mr st af rf ir].
  cbn [animationFrameRef mediaRecorderRef isRecordingRef callState
       websocketRef streamRef requestedFrames].
  destruct ws as [w|], st as [ts|], mr as [r|];
    cbn [websocketRef streamRef mediaRecorderRef set_websocket set_stream
         set_mediaRecorder set_callState callState animationFrameRef
         requestedFrames isRecordingRef fmap option_fmap option_map];
    rewrite ?recorder_stop_standard;
    cbn [mbind option_bind websocketRef streamRef mediaRecorderRef
         set_websocket set_stream set_mediaRecorder set_callState callState
         animationFrameRef requestedFrames isRecordingRef];
    reflexivity.
Qed.

Lemma ws_close_closed (ws : ReadyState) : ws_closed (ws_close ws).
Proof. destruct ws; unfold ws_closed; cbn; auto. Qed.

(** C10.  [endCall], from any state of the component, returns with the call
    state disconnected, not listening, not speaking and the status Call
    ended, and it has acted on what was there before: the socket the
    component held is the one it holds now, closed ([close()] has been
    called on it); the stream is the same stream with every one of its
    tracks stopped; the recorder is the same recorder, stopped, with the
    detector's flag cleared; the animation frame that was pending is
    cancelled.  Nothing is dropped and nothing is created. *)
Theorem endCall_settles (c : Component) :
  exists c' : Component,
    endCall false c = Some c'
    /\ callState c' = mkCallState false false false "Call ended"
    /\ websocketRef c' = ws_close <$> websocketRef c
    /\ streamRef c' = map track_stop <$> streamRef c
    /\ mediaRecorderRef c' = (fun _ => inactive) <$> mediaRecorderRef c
    /\ (forall ws, websocketRef c' = Some ws -> ws_closed ws)
    /\ (forall tracks, streamRef c' = Some tracks ->
          exists before, streamRef c = Some before
            /\ length tracks = length before
            /\ Forall (fun t => t = ended) tracks)
    /\ (forall r, mediaRecorderRef c' = Some r ->
          r = inactive /\ isRecordingRef c' = false)
    /\ (forall id, animationFrameRef c = Some id -> id <> 0%N ->
          id ∉ requestedFrames c').
Proof.
  rewrite endCall_eq. eexists. split; [reflexivity|].
  cbn [callState websocketRef streamRef mediaRecorderRef isRecordingRef
       requestedFrames].
  split; [reflexivity|]. split; [reflexivity|]. split; [reflexivity|].
  split; [reflexivity|]. split; [|split; [|split]].
  - intros ws Hws. destruct (websocketRef c) as [w|]; [|discriminate Hws].
    injection Hws as <-. apply ws_close_closed.
  - intros tracks Ht. destruct (streamRef c) as [before|]; [|discriminate Ht].
    injection Ht as <-. exists before. split; [reflexivity|].
    split; [apply length_map|].
    apply Forall_forall. intros t Hin. apply list_elem_of_fmap in Hin.
    destruct Hin as (t0 & -> & _). reflexivity.
  - intros r Hr. destruct (mediaRecorderRef c) as [r0|]; [|discriminate Hr].
    injection Hr as <-. split; reflexivity.
  - intros id -> Hid. apply N.eqb_neq in Hid. rewrite Hid.
    intros Hin. apply list_elem_of_filter in Hin as [Hne _]. contradiction.
Qed.

(** Where stopping an inactive recorder throws, [endCall] does not reach
    [setCallState] once a recorder exists and the refs agree. *)
Lemma endCall_legacy_throws (c : Component) (r : RecordingState) :
  mediaRecorderRef c = Some r ->
  isRecordingRef c = true \/ r = inactive ->
  endCall true c = None.
Proof.
  intros Hr Hcase. destruct c as [cs ws mr st af rf ir].
  cbn [mediaRecorderRef isRecordingRef] in Hr, Hcase. subst mr.
  unfold endCall, stopListening. cbn [animationFrameRef].
  destruct af as [id|]; [destruct (id =? 0)%N|];
    destruct ir, r, ws, st; cbn; try reflexivity;
    destruct Hcase as [H|H]; discriminate H.
Qed.

(** Without a recorder no [stop()] is called, so [endCall] returns the same
    wherever an inactive recorder's [stop()] throws or not. *)
Lemma endCall_without_recorder (legacy : bool) (c : Component) :
  mediaRecorderRef c = None -> endCall legacy c = endCall false c.
Proof.
  intros Hr. destruct c as [cs ws mr st af rf ir].
  cbn [mediaRecorderRef] in Hr. subst mr.
  unfold endCall, stopListening. cbn [animationFrameRef].
  destruct af as [id|]; [destruct (id =? 0)%N|];
    destruct ws, st; reflexivity.
Qed.

End CallInterfaceFacts.

Module VoiceAgentFacts.
Import VoiceAgent.

(** Once the interval is cleared no callback runs any more. *)
Lemma run_stalled (ticks : list IntervalTick) (h : Hook) :
  intervalActive h = false -> run ticks h = h.
Proof.
  intros Hoff. induction ticks as [|t ticks IH]; [reflexivity|].
  unfold run in *. cbn [fold_left]. unfold on_interval at 2.
  rewrite Hoff. exact IH.
Qed.

(** A failed synthesis does restart the cycle. *)
Lemma synthesis_failure_restarts (c : Cycle) (h : Hook) (transcript reply : string) :
  transcribeAudio (recognition c) = Resolved transcript ->
  String.eqb (sessionId h) "" = false ->
  chat c = ChatReplied (Some reply) ->
  String.eqb reply "" = false ->
  micOk c = true ->
  let h' := pipeline c h in
  state h' = listening /\ recorderActive h' = true /\ intervalActive h' = true.
Proof.
  intros Ht Hs Hc Hr Hm. unfold pipeline. rewrite Ht.
  destruct h as [st ms sid er pr ra ia ls tr cr sp]. cbn [sessionId] in Hs.
  unfold sendMessage, stopRecording, log_transcribe, set_recorder.
  cbn [sessionId]. rewrite Hs, Hc. cbn [truthy]. rewrite Hr. cbn [negb default].
  unfold speakText, startConversation, startRecording.
  destruct (speech c); rewrite Hm; cbn; auto.
Qed.

(** C4.  A failed reasoning request does not bring the hook back to
    listening: the cycle that ends in a failed chat request leaves the state
    at [processing] with the recorder stopped and the silence check cleared,
    and nothing that follows changes it. *)
Theorem reasoning_failure_stalls :
  let h := run (quiet_ticks backend_down)
               (startConversation true 0 (initialized "session-1")) in
  state h = processing /\ recorderActive h = false /\ intervalActive h = false
  /\ chatRequests h = ["I need an appointment"]
  /\ forall ticks : list IntervalTick, run ticks h = h.
Proof.
  intros h.
  assert (intervalActive h = false) as Hoff by (vm_compute; reflexivity).
  split; [vm_compute; reflexivity|].
  split; [vm_compute; reflexivity|].
  split; [exact Hoff|].
  split; [vm_compute; reflexivity|].
  intros ticks. apply run_stalled, Hoff.
Qed.

(** Silence of exactly SILENCE_DURATION does not stop the recording yet
    (the comparison is strict); the next tick does. *)
Lemma checkSilence_is_strict :
  let h0 := startConversation true 0 (initialized "session-1") in
  intervalActive (run (take 15 (quiet_ticks nothing_heard)) h0) = true
  /\ recorderActive (run (take 15 (quiet_ticks nothing_heard)) h0) = true
  /\ intervalActive (run (take 16 (quiet_ticks nothing_heard)) h0) = false
  /\ recorderActive (run (take 16 (quiet_ticks nothing_heard)) h0) = false.
Proof.
  intros h0. subst h0.
  split; [vm_compute; reflexivity|].
  split; [vm_compute; reflexivity|].
  split; vm_compute; reflexivity.
Qed.

(** An empty transcription stalls the cycle as well. *)
Lemma transcription_failure_stalls :
  let h := run (quiet_ticks nothing_heard)
               (startConversation true 0 (initialized "session-1")) in
  recorderActive h = false /\ intervalActive h = false
  /\ forall ticks : list IntervalTick, run ticks h = h.
Proof.
  intros h.
  assert (intervalActive h = false) as Hoff by (vm_compute; reflexivity).
  split; [vm_compute; reflexivity|].
  split; [exact Hoff|].
  intros ticks. apply run_stalled, Hoff.
Qed.

(** C5.  The hook declares MIN_SPEECH_DURATION ("ignore audio shorter than
    this") and never reads it: a recording in which no sound was heard at
    all, and one with a single tick of sound (100 ms, a cough), are ended by
    the silence check like any other and handed to [transcribeAudio]. *)
Theorem short_utterance_is_finalized :
  let h0 := startConversation true 0 (initialized "session-1") in
  (VoiceAgentRuns.sound_duration (quiet_ticks nothing_heard) < MIN_SPEECH_DURATION)%Z
  /\ transcribeRequests (run (quiet_ticks nothing_heard) h0) = [32000%N]
  /\ (VoiceAgentRuns.sound_duration VoiceAgentRuns.cough < MIN_SPEECH_DURATION)%Z
  /\ transcribeRequests (run VoiceAgentRuns.cough h0) = [32000%N].
Proof.
  intros h0. subst h0.
  split; [vm_compute; reflexivity|].
  split; [vm_compute; reflexivity|].
  split; vm_compute; reflexivity.
Qed.

End VoiceAgentFacts.

Module AppFacts.
Import App.

Lemma fallback_truthy (now : Z) :
  truthy (Some ("fallback-" ++ show now)%string) = true.
Proof. reflexivity. Qed.

(** C9.  When the session cannot be created, initialisation installs the
    identifier fallback-<timestamp>; the Call button is enabled, and a click
    on it starts the call. *)
Theorem fallback_session_installed (r : SessionResponse) (now : Z) (a : App) :
  creation_failed r = true ->
  sessionId (initializeSession r now a) = Some ("fallback-" ++ show now)%string
  /\ call_button_disabled (initializeSession r now a) = false
  /\ (isInCall a = false ->
      isInCall (step ClickCall (initializeSession r now a)) = true).
Proof.
  intros Hfail.
  assert (exists thrown, initializeSession r now a = use_fallback thrown now a)
    as [thrown ->].
  { destruct r as [message|ok code body]; cbn [initializeSession].
    - eauto.
    - destruct ok; cbn [negb]; [|eauto].
      destruct body as [message|session_id]; [eauto|].
      cbn in Hfail. destruct (truthy session_id); [discriminate|eauto]. }
  assert (call_button_disabled (use_fallback thrown now a) = false) as Hbtn.
  { unfold call_button_disabled, use_fallback. cbn [sessionId setSessionId].
    rewrite fallback_truthy. reflexivity. }
  split; [reflexivity|]. split; [exact Hbtn|].
  intros Hidle. cbn [step].
  replace (isInCall (use_fallback thrown now a)) with false
    by (symmetry; exact Hidle).
  rewrite Hbtn. cbn [orb]. unfold handleStartCall.
  unfold call_button_disabled in Hbtn. apply negb_false_iff in Hbtn.
  rewrite Hbtn. reflexivity.
Qed.

Lemma fallback_session_installed_witness :
  creation_failed (HttpResponse true 200 (Json None)) = true /\
  sessionId (initializeSession (HttpResponse true 200 (Json None)) 1767400000000 mounted)
  = Some "fallback-1767400000000".
Proof.
  split; [reflexivity|].
  apply (fallback_session_installed (HttpResponse true 200 (Json None))
                                    1767400000000 mounted).
  reflexivity.
Defined.

(** The response handler closes the microphone before the agent speaks. *)
Lemma response_closes_microphone (text : string) (a : App) :
  micCapturing (handleResponseReceived text a) = false
  /\ playing (handleResponseReceived text a) = true.
Proof.
  unfold handleResponseReceived, playVoiceResponse, speak, playing.
  destruct a as [sid st ic tr il se sr mc us ck ts].
  destruct us as [|u us]; cbn; auto.
Qed.

(** C3.  The timeout that reopens the microphone survives the end of the
    call: when the call is ended and started again within the second after
    an utterance, the microphone opens while the new greeting is playing. *)
Theorem microphone_opens_during_greeting :
  let a := run call_again ready in
  isInCall a = true /\ utterances a = [greeting] /\ playing a = true
  /\ micCapturing a = true /\ isListening a = true.
Proof.
  intros a. subst a.
  repeat split; vm_compute; reflexivity.
Qed.

End AppFacts.

Module RouterFacts.
Import Router.

Section InvokeFacts.

Context {Request Response : Type}.
Variable semantically_empty : Response -> bool.
Variable call : ProviderId -> Request -> CallResult Response.

(** Providers that fail are passed over one by one, each leaving its
    attempt and its failure in the journal. *)
Lemma try_providers_failing (cap : Capability) (req : Request)
    (before rest : list ProviderId) (errs : list ProviderError) (j : Journal) :
  Forall2 (fun q e => attempt semantically_empty call q req = inr e) before errs ->
  try_providers semantically_empty call cap (before ++ rest) req j =
  try_providers semantically_empty call cap rest req
    (mkJournal (attempted j ++ before) (failures j ++ zip before errs)).
Proof.
  intros H; revert j; induction H as [|q e before errs Hq _ IH]; intros j.
  - cbn [app zip zip_with]. rewrite !app_nil_r. destruct j; reflexivity.
  - cbn [app Router.try_providers]. rewrite Hq, IH.
    unfold record_failure, record_attempt. cbn [attempted failures zip zip_with].
    rewrite <- !app_assoc. reflexivity.
Qed.

Lemma zip_errors (ps : list ProviderId) (errs : list ProviderError) :
  length ps = length errs -> map snd (zip ps errs) = errs.
Proof.
  revert errs; induction ps as [|p ps IH]; intros [|e errs] Hlen;
    cbn in *; try congruence; try lia.
  f_equal. apply IH. lia.
Qed.

(** C2.  Fallback determinism: when the providers before [p] in the
    priority list all fail and [p] succeeds, [invoke] returns the result of
    [p]; it has attempted exactly the providers up to [p], in the configured
    order, and recorded exactly the failures of those before [p], in that
    order. *)
Theorem fallback_in_priority_order
    (cfg : ProviderConfig) (cap : Capability) (req : Request)
    (before after : list ProviderId) (p : ProviderId)
    (errs : list ProviderError) (r : Response) :
  priorityList cfg cap = before ++ p :: after ->
  Forall2 (fun q e => attempt semantically_empty call q req = inr e) before errs ->
  attempt semantically_empty call p req = inl r ->
  invoke semantically_empty call cfg cap req = (inl r, mkJournal (before ++ [p]) (zip before errs)).
Proof.
  intros Hlist Hfail Hok. unfold Router.invoke. rewrite Hlist.
  rewrite (try_providers_failing _ _ _ _ _ _ Hfail).
  cbn [Router.try_providers empty_journal attempted failures app].
  rewrite Hok. reflexivity.
Qed.

(** C7.  Exhaustion: when every provider of the priority list fails,
    [invoke] returns a [ProviderFailure] with the capability, all the
    providers in the configured order, and the last error. *)
Theorem exhaustion_lists_all_providers
    (cfg : ProviderConfig) (cap : Capability) (req : Request)
    (errs : list ProviderError) :
  Forall2 (fun q e => attempt semantically_empty call q req = inr e) (priorityList cfg cap) errs ->
  invoke semantically_empty call cfg cap req =
  (inr (mkProviderFailure cap (priorityList cfg cap) (last errs)),
   mkJournal (priorityList cfg cap) (zip (priorityList cfg cap) errs)).
Proof.
  intros Hfail. unfold Router.invoke.
  rewrite <- (app_nil_r (priorityList cfg cap)) at 1.
  rewrite (try_providers_failing _ _ _ _ _ _ Hfail).
  cbn [Router.try_providers empty_journal attempted failures app].
  rewrite zip_errors by (eapply Forall2_length; eassumption).
  reflexivity.
Qed.

(** What [try_providers] returns as a success passed the emptiness test. *)
Lemma try_providers_nonempty (cap : Capability) (ps : list ProviderId)
    (req : Request) (j j' : Journal) (r : Response) :
  try_providers semantically_empty call cap ps req j = (inl r, j') -> semantically_empty r = false.
Proof.
  revert j; induction ps as [|p ps IH]; intros j; cbn [Router.try_providers].
  - intros H. discriminate.
  - destruct (attempt semantically_empty call p req) as [r0|e] eqn:Ha.
    + intros H. injection H as -> _.
      unfold Router.attempt in Ha. destruct (call p req); try discriminate.
      destruct (semantically_empty response) eqn:He; [discriminate|].
      injection Ha as ->. exact He.
    + apply IH.
Qed.

(** C6.  A response that is valid but semantically empty counts as a
    failure of its provider: the failure is recorded and the router goes on
    with the next provider; and no [invoke] returns an empty response as a
    success. *)
Theorem empty_response_is_failure
    (cap : Capability) (p : ProviderId) (ps : list ProviderId)
    (req : Request) (j : Journal) (r : Response) :
  call p req = Returned r ->
  semantically_empty r = true ->
  attempt semantically_empty call p req = inr EmptyResult
  /\ try_providers semantically_empty call cap (p :: ps) req j =
     try_providers semantically_empty call cap ps req (record_failure p EmptyResult (record_attempt p j))
  /\ forall (cfg : ProviderConfig) (cap' : Capability) (req' : Request)
            (r' : Response) (j' : Journal),
       invoke semantically_empty call cfg cap' req' = (inl r', j') -> semantically_empty r' = false.
Proof.
  intros Hcall Hempty.
  assert (attempt semantically_empty call p req = inr EmptyResult) as Ha.
  { unfold Router.attempt. rewrite Hcall, Hempty. reflexivity. }
  split; [exact Ha|]. split.
  - cbn [Router.try_providers]. rewrite Ha. reflexivity.
  - intros cfg cap' req' r' j' H. unfold Router.invoke in H.
    eapply try_providers_nonempty. exact H.
Qed.

End InvokeFacts.

(** The hook's [transcribeAudio] resolves exactly when the router's attempt
    on the recogniser's outcome succeeds, and then with the trimmed
    response. *)
Lemma transcribeAudio_attempt (p : ProviderId) (r : VoiceAgent.Recognition) :
  match attempt empty_transcript (fun _ => recognition_call) p r with
  | inl raw => VoiceAgent.transcribeAudio r = VoiceAgent.Resolved (VoiceAgent.trim raw)
  | inr _ => exists reason, VoiceAgent.transcribeAudio r = VoiceAgent.Rejected reason
  end.
Proof.
  unfold attempt, recognition_call, VoiceAgent.transcribeAudio, empty_transcript.
  destruct r as [|code|parts]; eauto.
  destruct (String.eqb _ ""); eauto.
Qed.

(** [_determine_provider] is the router's selection over the detection
    order, with a provider answering when its variable is set. *)
Lemma determine_provider_selection (environ : gmap string string) :
  match _determine_provider environ with
  | Return p =>
      fst (invoke (fun _ => false) (configured environ)
                  (mkProviderConfig (fun _ => detection_order)) reasoning tt)
      = inl p
  | Raise _ _ =>
      exists failure,
        fst (invoke (fun _ => false) (configured environ)
                    (mkProviderConfig (fun _ => detection_order)) reasoning tt)
        = inr failure
        /\ triedProviders failure = detection_order
  end.
Proof.
  unfold _determine_provider, invoke, detection_order.
  cbn [priorityList try_providers]. unfold attempt, configured.
  change (variable_of "ollama") with "OLLAMA_BASE_URL".
  change (variable_of "groq") with "GROQ_API_KEY".
  change (variable_of "openai") with "OPENAI_API_KEY".
  destruct (is_set (getenv environ "OLLAMA_BASE_URL")); [reflexivity|].
  destruct (is_set (getenv environ "GROQ_API_KEY")); [reflexivity|].
  destruct (is_set (getenv environ "OPENAI_API_KEY")); [reflexivity|].
  eexists. split; reflexivity.
Qed.

(** The scenario of the specification: [A] and [B] fail, [C] answers. *)
Lemma fallback_in_priority_order_witness :
  invoke empty_transcript third_answers three_providers transcription 32000%N
  = (inl "I need an appointment",
     mkJournal ["A"; "B"; "C"]
               [("A", Timeout); ("B", TransportError "connection refused")]).
Proof.
  apply (fallback_in_priority_order empty_transcript third_answers
           three_providers transcription 32000%N ["A"; "B"] [] "C"
           [Timeout; TransportError "connection refused"]).
  - reflexivity.
  - repeat constructor.
  - reflexivity.
Defined.

Lemma exhaustion_lists_all_providers_witness :
  fst (invoke empty_transcript all_down three_providers transcription 32000%N)
  = inr (mkProviderFailure transcription ["A"; "B"; "C"]
           (Some (TransportError "connection refused"))).
Proof.
  rewrite (exhaustion_lists_all_providers empty_transcript all_down
             three_providers transcription 32000%N
             [TransportError "connection refused";
              TransportError "connection refused";
              TransportError "connection refused"]).
  - reflexivity.
  - repeat constructor.
Defined.

Lemma empty_response_is_failure_witness :
  attempt empty_transcript first_hears_nothing "A" 32000%N = inr EmptyResult.
Proof.
  apply (empty_response_is_failure empty_transcript first_hears_nothing
           transcription "A" ["B"; "C"] 32000%N empty_journal "   ").
  - reflexivity.
  - reflexivity.
Defined.

End RouterFacts.

Module ListenerFacts.
Import CallInterface CallInterfaceHandlers.

(** *** The passes of [checkAudio], case by case *)

Lemma pass_idle_silence (t : Tick) (l : Listener) :
  isRecording l = false -> isSpeechDetected t = false ->
  checkAudio true t l = (set_frame true l, none).
Proof.
  destruct l as [c r rec ch ws sn tr fr]. cbn [isRecording]. intros -> Hs.
  unfold checkAudio. rewrite Hs.
  cbn [negb isRecording silenceCounter]. rewrite andb_false_r. reflexivity.
Qed.

Lemma pass_idle_speech (t : Tick) (l : Listener) :
  isRecording l = false -> isSpeechDetected t = true ->
  checkAudio true t l =
  (set_frame true
     (set_recording true (set_recorded 0%N (set_chunks [] (set_counter 0 l)))),
   turnStarted).
Proof.
  destruct l as [c r rec ch ws sn tr fr]. cbn [isRecording]. intros -> Hs.
  unfold checkAudio. rewrite Hs. reflexivity.
Qed.

Lemma pass_recording_speech (t : Tick) (l : Listener) :
  isRecording l = true -> isSpeechDetected t = true ->
  checkAudio true t l =
  (set_frame true (set_counter 0 (set_recorded (recorded l + captured t)%N l)),
   none).
Proof.
  destruct l as [c r rec ch ws sn tr fr]. cbn [isRecording]. intros -> Hs.
  unfold checkAudio. rewrite Hs. reflexivity.
Qed.

Lemma pass_recording_pause (t : Tick) (l : Listener) :
  isRecording l = true -> isSpeechDetected t = false ->
  (S (silenceCounter l) < silenceDurationFrames)%nat ->
  checkAudio true t l =
  (set_frame true
     (set_counter (S (silenceCounter l))
                  (set_recorded (recorded l + captured t)%N l)),
   none).
Proof.
  destruct l as [c r rec ch ws sn tr fr]. cbn [isRecording silenceCounter].
  intros -> Hs Hc. unfold checkAudio. rewrite Hs.
  cbn [negb isRecording silenceCounter recorded set_recorded set_counter].
  destruct (Nat.leb_spec silenceDurationFrames (S c)); [lia|reflexivity].
Qed.

Lemma pass_recording_stop (t : Tick) (l : Listener) :
  isRecording l = true -> isSpeechDetected t = false ->
  (silenceDurationFrames <= S (silenceCounter l))%nat ->
  checkAudio true t l =
  (set_frame true
     (set_counter 0
        (set_recording false
           (mediaRecorder_stop
              (set_counter (S (silenceCounter l))
                           (set_recorded (recorded l + captured t)%N l))))),
   turnEnded).
Proof.
  destruct l as [c r rec ch ws sn tr fr]. cbn [isRecording silenceCounter].
  intros -> Hs Hc. unfold checkAudio. rewrite Hs.
  cbn [negb isRecording silenceCounter recorded set_recorded set_counter].
  destruct (Nat.leb_spec silenceDurationFrames (S c)); [reflexivity|lia].
Qed.

(** The five cases are all there is. *)
Lemma pass_cases (t : Tick) (l : Listener) (P : Listener * TurnSignal -> Prop) :
  (isRecording l = false -> isSpeechDetected t = false ->
   P (set_frame true l, none)) ->
  (isRecording l = false -> isSpeechDetected t = true ->
   P (set_frame true
        (set_recording true (set_recorded 0%N (set_chunks [] (set_counter 0 l)))),
      turnStarted)) ->
  (isRecording l = true -> isSpeechDetected t = true ->
   P (set_frame true (set_counter 0 (set_recorded (recorded l + captured t)%N l)),
      none)) ->
  (isRecording l = true -> isSpeechDetected t = false ->
   (S (silenceCounter l) < silenceDurationFrames)%nat ->
   P (set_frame true
        (set_counter (S (silenceCounter l))
                     (set_recorded (recorded l + captured t)%N l)),
      none)) ->
  (isRecording l = true -> isSpeechDetected t = false ->
   (silenceDurationFrames <= S (silenceCounter l))%nat ->
   P (set_frame true
        (set_counter 0
           (set_recording false
              (mediaRecorder_stop
                 (set_counter (S (silenceCounter l))
                              (set_recorded (recorded l + captured t)%N l))))),
      turnEnded)) ->
  P (checkAudio true t l).
Proof.
  intros H1 H2 H3 H4 H5.
  destruct (isRecording l) eqn:Hr, (isSpeechDetected t) eqn:Hs.
  - rewrite pass_recording_speech by assumption. auto.
  - destruct (Nat.le_gt_cases silenceDurationFrames (S (silenceCounter l))).
    + rewrite pass_recording_stop by assumption. auto.
    + rewrite pass_recording_pause by assumption. auto.
  - rewrite pass_idle_speech by assumption. auto.
  - rewrite pass_idle_silence by assumption. auto.
Qed.

(** What [mediaRecorder.stop()] leaves behind. *)
Lemma mediaRecorder_stop_fields (l : Listener) :
  let l' := mediaRecorder_stop l in
  recorded l' = 0%N /\ wsOpen l' = wsOpen l
  /\ silenceCounter l' = silenceCounter l /\ isRecording l' = isRecording l
  /\ (audioChunks l = [] -> audioChunks l' = []).
Proof.
  unfold mediaRecorder_stop, ondataavailable, onstop.
  destruct l as [c r rec ch ws sn tr fr]. cbn [recorded set_recorded].
  destruct (0 <? rec)%N; cbn [audioChunks set_chunks];
    destruct ch as [|x ch]; cbn; destruct ws; cbn; auto.
Qed.

Lemma mediaRecorder_stop_closed (l : Listener) :
  wsOpen l = false ->
  sent (mediaRecorder_stop l) = sent l
  /\ transcripts (mediaRecorder_stop l) = transcripts l.
Proof.
  unfold mediaRecorder_stop, ondataavailable, onstop.
  destruct l as [c r rec ch ws sn tr fr]. cbn [wsOpen]. intros ->.
  cbn [recorded set_recorded].
  destruct (0 <? rec)%N; cbn [audioChunks set_chunks];
    destruct ch as [|x ch]; cbn; auto.
Qed.

Lemma mediaRecorder_stop_open (l : Listener) :
  wsOpen l = true -> (0 < recorded l)%N ->
  sent (mediaRecorder_stop l)
  = sent l ++ [blob_size (audioChunks l ++ [recorded l])]
  /\ transcripts (mediaRecorder_stop l)
     = transcripts l ++ [("You", "[Processing your speech...]")].
Proof.
  unfold mediaRecorder_stop, ondataavailable, onstop.
  destruct l as [c r rec ch ws sn tr fr]. cbn [wsOpen recorded]. intros -> Hpos.
  cbn [recorded set_recorded].
  apply N.ltb_lt in Hpos. rewrite Hpos. cbn [audioChunks set_chunks].
  destruct ch as [|x ch]; cbn; auto.
Qed.

(** A pass whose closure reads a disconnected call returns at its first
    line: nothing changes, nothing is emitted, no frame is requested. *)
Lemma checkAudio_disconnected (t : Tick) (l : Listener) :
  checkAudio false t l = (l, none).
Proof. reflexivity. Qed.

Lemma passes_disconnected (ticks : list Tick) (l : Listener) :
  passes false l ticks = (l, repeat none (length ticks)).
Proof.
  induction ticks as [|t ticks IH]; [reflexivity|].
  cbn [passes length repeat]. rewrite checkAudio_disconnected, IH. reflexivity.
Qed.

Lemma bracketed_none (open : bool) (n : nat) : bracketed open (repeat none n).
Proof. induction n as [|n IH]; [exact I|exact IH]. Qed.

Lemma signals_cons (t : Tick) (ticks : list Tick) (l : Listener) :
  signals true l (t :: ticks) = snd (checkAudio true t l) :: signals true (fst (checkAudio true t l)) ticks.
Proof.
  unfold signals. cbn [passes]. destruct (checkAudio true t l) as [l1 sig].
  cbn [fst snd]. destruct (passes true l1 ticks) as [l2 sigs]. reflexivity.
Qed.

Lemma final_cons (t : Tick) (ticks : list Tick) (l : Listener) :
  fst (passes true l (t :: ticks)) = fst (passes true (fst (checkAudio true t l)) ticks).
Proof.
  cbn [passes]. destruct (checkAudio true t l) as [l1 sig].
  cbn [fst snd]. destruct (passes true l1 ticks) as [l2 sigs]. reflexivity.
Qed.

Lemma signals_bracketed_connected (ticks : list Tick) (l : Listener) :
  bracketed (isRecording l) (signals true l ticks).
Proof.
  revert l; induction ticks as [|t ticks IH]; intros l; [exact I|].
  rewrite signals_cons.
  apply (pass_cases t l
           (fun res => bracketed (isRecording l)
                                 (snd res :: signals true (fst res) ticks)));
    intros Hr Hs; try intros Hc; cbn [fst snd bracketed]; rewrite Hr.
  all: try (split; [reflexivity|]).
  all: match goal with
       | |- bracketed _ (signals true ?x _) =>
           specialize (IH x);
           cbn [isRecording set_frame set_counter set_recording set_recorded
                set_chunks] in IH;
           rewrite ?Hr in IH; exact IH
       end.
Qed.

(** X1.  Whatever the frames and whatever the closure of the loop reads as
    [callState.isConnected], the signals of consecutive passes are
    bracketed: a [turnStarted] is emitted only when no turn is open, a
    [turnEnded] only when one is, so the two alternate. *)
Theorem signals_bracketed (connected : bool) (ticks : list Tick) (l : Listener) :
  bracketed (isRecording l) (signals connected l ticks).
Proof.
  destruct connected; [apply signals_bracketed_connected|].
  unfold signals. rewrite passes_disconnected. apply bracketed_none.
Qed.

(** *** Where a turn ends *)

Lemma onstop_detector (l : Listener) : detector_of (onstop l) = detector_of l.
Proof.
  unfold onstop. destruct (audioChunks l); [reflexivity|].
  destruct (wsOpen l); reflexivity.
Qed.

Lemma mediaRecorder_stop_detector (l : Listener) :
  detector_of (mediaRecorder_stop l) = detector_of l.
Proof.
  unfold mediaRecorder_stop. rewrite onstop_detector.
  unfold ondataavailable. destruct (0 <? _)%N; reflexivity.
Qed.

(** The counter and the flag evolve as the detector, and the pass emits its
    signal, whatever the recorder and the socket hold. *)
Lemma pass_detector (t : Tick) (l : Listener) :
  detector_of (fst (checkAudio true t l))
  = fst (detector_step (isSpeechDetected t) (detector_of l))
  /\ snd (checkAudio true t l)
     = snd (detector_step (isSpeechDetected t) (detector_of l)).
Proof.
  unfold checkAudio, detector_step.
  destruct l as [c r rec ch ws sn tr fr];
    cbn [negb detector_of silenceCounter isRecording].
  destruct r, (isSpeechDetected t);
    cbn [set_recorded set_counter set_recording set_chunks isRecording
         silenceCounter negb andb];
    repeat match goal with
    | |- context [(?a <=? ?b)%nat] => destruct (a <=? b)%nat eqn:?
    end;
    cbn [andb fst snd]; try (split; reflexivity).
  all: split; [|reflexivity].
  all: match goal with
       | |- context [mediaRecorder_stop ?x] =>
           pose proof (mediaRecorder_stop_detector x) as H;
           unfold detector_of in *; cbn in *; congruence
       end.
Qed.

Lemma signals_detector (ticks : list Tick) (l : Listener) :
  signals true l ticks = detector_run (detector_of l) (map isSpeechDetected ticks).
Proof.
  revert l; induction ticks as [|t ticks IH]; intros l; [reflexivity|].
  rewrite signals_cons. cbn [map detector_run].
  destruct (pass_detector t l) as [Hd Hs]. rewrite Hs, IH, Hd.
  destruct (detector_step (isSpeechDetected t) (detector_of l)) as [d1 sig].
  reflexivity.
Qed.

Lemma completes_silence_first (b : bool) (bs : list bool) :
  ~ completes_silence (b :: bs) 0.
Proof. intros (k & Hk & _). unfold silenceDurationFrames in Hk. lia. Qed.

Lemma completes_silence_cons (b : bool) (bs : list bool) (i : nat) :
  completes_silence (b :: bs) (S i)
  <-> (b = true /\ completes_counted 0 bs i) \/ completes_silence bs i.
Proof.
  unfold completes_silence, completes_counted. split.
  - intros (k & Hk & Hsp & Hsil). destruct k as [|k].
    + left. cbn in Hsp. injection Hsp as ->. split; [reflexivity|].
      split; [lia|]. intros j Hj. apply (Hsil (S j)). lia.
    + right. exists k. split; [lia|]. split; [exact Hsp|].
      intros j Hj. apply (Hsil (S j)). lia.
  - intros [(-> & Hi & Hsil)|(k & Hk & Hsp & Hsil)].
    + exists 0%nat. split; [lia|]. split; [reflexivity|].
      intros [|j] Hj; [lia|]. apply Hsil. lia.
    + exists (S k). split; [lia|]. split; [exact Hsp|].
      intros [|j] Hj; [lia|]. apply Hsil. lia.
Qed.

Lemma completes_counted_first (c : nat) (b : bool) (bs : list bool) :
  completes_counted c (b :: bs) 0
  <-> b = false /\ (c + 1 = silenceDurationFrames)%nat.
Proof.
  unfold completes_counted. split.
  - intros (Hc & Hsil). specialize (Hsil 0%nat (le_n _)). cbn in Hsil.
    injection Hsil as ->. split; [reflexivity|lia].
  - intros (-> & Hc). split; [lia|]. intros j Hj.
    replace j with 0%nat by lia. reflexivity.
Qed.

Lemma completes_counted_cons (c : nat) (b : bool) (bs : list bool) (i : nat) :
  completes_counted c (b :: bs) (S i)
  <-> b = false /\ completes_counted (S c) bs i.
Proof.
  unfold completes_counted. split.
  - intros (Hc & Hsil). pose proof (Hsil 0%nat ltac:(lia)) as H0. cbn in H0.
    injection H0 as ->. split; [reflexivity|]. split; [lia|].
    intros j Hj. apply (Hsil (S j)). lia.
  - intros (-> & Hc & Hsil). split; [lia|].
    intros [|j] Hj; [reflexivity|]. apply Hsil. lia.
Qed.

(** The detector ends a turn at the frames that complete the silence, and
    at no other. *)
Lemma detector_ends (bs : list bool) (c : nat) (r : bool) (i : nat) :
  (c < silenceDurationFrames)%nat ->
  detector_run (c, r) bs !! i = Some turnEnded
  <-> (r = true /\ completes_counted c bs i) \/ completes_silence bs i.
Proof.
  revert c r i; induction bs as [|b bs IH]; intros c r i Hc.
  - cbn [detector_run]. rewrite lookup_nil. split; [discriminate|].
    intros [(_ & _ & Hsil)|(k & _ & Hsp & _)].
    + specialize (Hsil 0%nat ltac:(lia)). discriminate Hsil.
    + discriminate Hsp.
  - cbn [detector_run].
    destruct b.
    + (* speech *)
      assert (exists sig, detector_step true (c, r) = ((0%nat, true), sig)
                          /\ sig <> turnEnded) as (sig & -> & Hsig)
        by (destruct r; cbn; eexists; split; try reflexivity; discriminate).
      destruct i as [|i].
      * cbn. split; [intros [= ->]; contradiction|].
        intros [(_ & H)|H].
        -- apply completes_counted_first in H as [H _]. discriminate H.
        -- exfalso. exact (completes_silence_first _ _ H).
      * rewrite lookup_cons_ne_0 by lia. cbn [Nat.pred].
        rewrite (IH 0%nat true i) by (unfold silenceDurationFrames; lia).
        rewrite completes_silence_cons, completes_counted_cons.
        split.
        -- intros [(_ & H)|H]; [right; left; auto|right; right; exact H].
        -- intros [(_ & H & _)|[(_ & H)|H]];
             [discriminate H|left; auto|right; exact H].
    + (* silence *)
      destruct r.
      * destruct (Nat.le_gt_cases silenceDurationFrames (S c)) as [Hle|Hlt].
        -- assert (detector_step false (c, true) = ((0%nat, false), turnEnded))
             as -> by (unfold detector_step;
                       destruct (Nat.leb_spec silenceDurationFrames (S c));
                       [reflexivity|lia]).
           destruct i as [|i].
           ++ cbn. split; [intros _|reflexivity]. left. split; [reflexivity|].
              apply completes_counted_first. split; [reflexivity|lia].
           ++ rewrite lookup_cons_ne_0 by lia. cbn [Nat.pred].
              rewrite (IH 0%nat false i) by (unfold silenceDurationFrames; lia).
              rewrite completes_silence_cons, completes_counted_cons.
              split.
              ** intros [(H & _)|H]; [discriminate H|right; right; exact H].
              ** intros [(_ & _ & H & _)|[(H & _)|H]];
                   [lia|discriminate H|right; exact H].
        -- assert (detector_step false (c, true) = ((S c, true), none))
             as -> by (unfold detector_step;
                       destruct (Nat.leb_spec silenceDurationFrames (S c));
                       [lia|reflexivity]).
           destruct i as [|i].
           ++ cbn. split; [discriminate|].
              intros [(_ & H)|H].
              ** apply completes_counted_first in H as [_ H]. lia.
              ** exfalso. exact (completes_silence_first _ _ H).
           ++ rewrite lookup_cons_ne_0 by lia. cbn [Nat.pred].
              rewrite (IH (S c) true i) by exact Hlt.
              rewrite completes_silence_cons, completes_counted_cons.
              split.
              ** intros [(_ & H)|H]; [left; auto|right; right; exact H].
              ** intros [(_ & _ & H)|[(H & _)|H]];
                   [left; auto|discriminate H|right; exact H].
      * assert (detector_step false (c, false) = ((c, false), none))
          as -> by (unfold detector_step; rewrite andb_false_r; reflexivity).
        destruct i as [|i].
        -- cbn. split; [discriminate|].
           intros [(H & _)|H]; [discriminate H|].
           exfalso. exact (completes_silence_first _ _ H).
        -- rewrite lookup_cons_ne_0 by lia. cbn [Nat.pred].
           rewrite (IH c false i) by exact Hc.
           rewrite completes_silence_cons.
           split.
           ++ intros [(H & _)|H]; [discriminate H|right; right; exact H].
           ++ intros [(H & _)|[(H & _)|H]];
                [discriminate H|discriminate H|right; exact H].
Qed.

(** X20.  Where the loop of [startListening] ends a turn.  In consecutive
    passes a [turnEnded] is emitted at exactly the frames that complete
    fifteen consecutive silent frames directly after a speech frame, and
    only by a loop whose closure reads the call as connected: silence
    before the first speech is not counted, a single speech frame is enough
    to open a turn, and the threshold is a number of frames, whatever time
    a frame takes. *)
Theorem turn_ends_after_silent_frames (connected ws_open : bool)
    (log : list (string * string)) (ticks : list Tick) (i : nat) :
  signals connected (CallInterface.startListening ws_open log) ticks !! i
  = Some turnEnded
  <-> connected = true /\ completes_silence (map isSpeechDetected ticks) i.
Proof.
  destruct connected.
  - rewrite signals_detector.
    change (detector_of (CallInterface.startListening ws_open log))
      with (0%nat, false).
    rewrite detector_ends by (unfold silenceDurationFrames; lia).
    split.
    + intros [(H & _)|H]; [discriminate H|auto].
    + intros [_ H]. right. exact H.
  - unfold signals. rewrite passes_disconnected. cbn [snd]. split.
    + intros H. exfalso.
      assert (forall n j s, repeat none n !! j = Some s -> s = none) as Hnone.
      { induction n as [|n IHn]; intros [|j] s Hl; cbn in Hl;
          try discriminate Hl; [injection Hl as <-; reflexivity|].
        exact (IHn j s Hl). }
      specialize (Hnone _ _ _ H). discriminate Hnone.
    + intros [H _]. discriminate H.
Qed.

Lemma startListening_tidy (ws_open : bool) (log : list (string * string)) :
  tidy (CallInterface.startListening ws_open log).
Proof.
  unfold tidy, CallInterface.startListening, silenceDurationFrames. cbn.
  split; [lia|]. auto.
Qed.

Lemma pass_tidy (t : Tick) (l : Listener) : tidy l -> tidy (fst (checkAudio true t l)).
Proof.
  intros (Hc & Hidle & Hch).
  apply (pass_cases t l (fun res => tidy (fst res)));
    intros Hr Hs; try intros Hlim; unfold tidy; cbn [fst].
  5: {
    match goal with
    | |- context [mediaRecorder_stop ?x] =>
        destruct (mediaRecorder_stop_fields x) as (Hrec & _ & _ & _ & Hchunks)
    end.
    cbn [silenceCounter isRecording recorded audioChunks set_frame set_counter
         set_recording].
    unfold silenceDurationFrames. split; [lia|]. split; [auto|].
    apply Hchunks. exact Hch. }
  all: cbn [silenceCounter isRecording recorded audioChunks set_frame
            set_counter set_recording set_recorded set_chunks].
  - auto.
  - unfold silenceDurationFrames. split; [lia|]. split; [discriminate|reflexivity].
  - unfold silenceDurationFrames. split; [lia|]. rewrite Hr.
    split; [discriminate|exact Hch].
  - split; [exact Hlim|]. rewrite Hr. split; [discriminate|exact Hch].
Qed.

(** X2.  Between any two consecutive passes of the loop started by
    [startListening], whatever its closure reads as [callState.isConnected],
    the silence counter is below the threshold, an idle detector has a zero
    counter and an empty recorder, and no audio chunk is left over. *)
Theorem listener_tidy (connected ws_open : bool) (log : list (string * string))
    (ticks : list Tick) :
  tidy (fst (passes connected (CallInterface.startListening ws_open log) ticks)).
Proof.
  destruct connected;
    [|rewrite passes_disconnected; apply startListening_tidy].
  generalize (startListening_tidy ws_open log).
  generalize (CallInterface.startListening ws_open log) as l.
  induction ticks as [|t ticks IH]; intros l Hl; [exact Hl|].
  rewrite final_cons. apply IH, pass_tidy, Hl.
Qed.

Lemma pass_closed (t : Tick) (l : Listener) :
  wsOpen l = false ->
  wsOpen (fst (checkAudio true t l)) = false
  /\ sent (fst (checkAudio true t l)) = sent l
  /\ transcripts (fst (checkAudio true t l)) = transcripts l.
Proof.
  intros Hws.
  apply (pass_cases t l
           (fun res => wsOpen (fst res) = false /\ sent (fst res) = sent l
                       /\ transcripts (fst res) = transcripts l));
    intros Hr Hs; try intros Hlim; cbn [fst]; try (cbn; auto; fail).
  match goal with
  | |- context [mediaRecorder_stop ?x] =>
      assert (wsOpen x = false) as Hws0 by exact Hws;
      destruct (mediaRecorder_stop_fields x) as (_ & Hw & _);
      destruct (mediaRecorder_stop_closed x Hws0) as (Hsent & Htr)
  end.
  cbn [wsOpen sent transcripts set_frame set_counter set_recording].
  rewrite Hw, Hsent, Htr. auto.
Qed.

Lemma closed_socket_connected (ticks : list Tick) (l : Listener) :
  wsOpen l = false ->
  sent (fst (passes true l ticks)) = sent l
  /\ transcripts (fst (passes true l ticks)) = transcripts l.
Proof.
  revert l; induction ticks as [|t ticks IH]; intros l Hws; [auto|].
  rewrite final_cons.
  destruct (pass_closed t l Hws) as (Hws' & Hsent & Htr).
  destruct (IH _ Hws') as (IHs & IHt). rewrite IHs, IHt. auto.
Qed.

(** X3.  Consecutive passes send something only if the closure of the loop
    reads the call as connected and the socket is open: otherwise nothing is
    sent and no transcript placeholder is added, however many turns end
    (their recordings are dropped). *)
Theorem closed_socket_sends_nothing (connected : bool) (ticks : list Tick)
    (l : Listener) :
  connected && wsOpen l = false ->
  sent (fst (passes connected l ticks)) = sent l
  /\ transcripts (fst (passes connected l ticks)) = transcripts l.
Proof.
  destruct connected; cbn [andb].
  - apply closed_socket_connected.
  - intros _. rewrite passes_disconnected. auto.
Qed.

Lemma closed_socket_sends_nothing_witness :
  sent (fst (passes false (CallInterface.startListening true []) click)) = []
  /\ sent (fst (passes true (CallInterface.startListening false []) click)) = [].
Proof.
  split.
  - apply (closed_socket_sends_nothing false click
             (CallInterface.startListening true [])).
    reflexivity.
  - apply (closed_socket_sends_nothing true click
             (CallInterface.startListening false [])).
    reflexivity.
Defined.

Lemma pass_open (t : Tick) (l : Listener) :
  wsOpen l = true -> (0 < captured t)%N -> Forall (fun b => (0 < b)%N) (sent l) ->
  let l' := fst (checkAudio true t l) in
  let n := count_ended [snd (checkAudio true t l)] in
  wsOpen l' = true /\ Forall (fun b => (0 < b)%N) (sent l')
  /\ length (sent l') = (length (sent l) + n)%nat
  /\ length (transcripts l') = (length (transcripts l) + n)%nat.
Proof.
  intros Hws Hcap Hpos.
  apply (pass_cases t l
           (fun res =>
              wsOpen (fst res) = true /\ Forall (fun b => (0 < b)%N) (sent (fst res))
              /\ length (sent (fst res))
                 = (length (sent l) + count_ended [snd res])%nat
              /\ length (transcripts (fst res))
                 = (length (transcripts l) + count_ended [snd res])%nat));
    intros Hr Hs; try intros Hlim; cbn [fst snd count_ended].
  5: {
    match goal with
    | |- context [mediaRecorder_stop ?x] =>
        assert (wsOpen x = true) as Hws0 by exact Hws;
        assert (0 < recorded x)%N as Hrec by (cbn; lia);
        destruct (mediaRecorder_stop_fields x) as (_ & Hw & _);
        destruct (mediaRecorder_stop_open x Hws0 Hrec) as (Hsent & Htr)
    end.
    cbn [wsOpen sent transcripts set_frame set_counter set_recording].
    rewrite Hw, Hsent, Htr, !length_app. cbn [length].
    split; [exact Hws|]. split; [|split; reflexivity].
    apply Forall_app. split; [exact Hpos|]. constructor; [|constructor].
    cbn [audioChunks recorded set_counter set_recorded].
    assert (forall ch r, (0 < r)%N -> (0 < blob_size (ch ++ [r]))%N) as Hblob.
    { induction ch as [|x ch IHch]; intros r Hr0; cbn; [lia|].
      specialize (IHch r Hr0). unfold blob_size in IHch. lia. }
    apply Hblob. lia. }
  all: cbn [wsOpen sent transcripts set_frame set_counter set_recording
            set_recorded set_chunks].
  all: rewrite !Nat.add_0_r; auto.
Qed.

(** X4.  With the socket open and a recorder that encodes something in every
    pass, each turn that consecutive passes end sends exactly one blob,
    never an empty one, and adds exactly one placeholder to the transcript,
    whatever the closure of the loop reads as [callState.isConnected] (when
    it reads a disconnected call no turn ends and nothing is sent). *)
Theorem one_blob_per_turn (connected : bool) (log : list (string * string))
    (ticks : list Tick) :
  Forall (fun t => (0 < captured t)%N) ticks ->
  let l' := fst (passes connected (CallInterface.startListening true log) ticks) in
  let n := count_ended (signals connected (CallInterface.startListening true log) ticks) in
  length (sent l') = n
  /\ length (transcripts l') = (length log + n)%nat
  /\ Forall (fun b => (0 < b)%N) (sent l')
  /\ (connected = false -> n = 0%nat).
Proof.
  intros Hcap.
  assert (forall k, count_ended (repeat none k) = 0%nat) as Hnone
    by (induction k as [|k IHk]; [reflexivity|exact IHk]).
  destruct connected.
  2: { unfold signals. rewrite passes_disconnected. cbn [fst snd].
       rewrite Hnone. cbn. rewrite Nat.add_0_r. auto. }
  assert (forall l : Listener,
            wsOpen l = true -> Forall (fun b => (0 < b)%N) (sent l) ->
            length (sent (fst (passes true l ticks)))
            = (length (sent l) + count_ended (signals true l ticks))%nat
            /\ length (transcripts (fst (passes true l ticks)))
               = (length (transcripts l) + count_ended (signals true l ticks))%nat
            /\ Forall (fun b => (0 < b)%N) (sent (fst (passes true l ticks))))
    as Hgen.
  { induction Hcap as [|t ticks Ht _ IH]; intros l Hws Hpos.
    - cbn. rewrite !Nat.add_0_r. auto.
    - rewrite final_cons, signals_cons.
      destruct (pass_open t l Hws Ht Hpos) as (Hws' & Hpos' & Hs & Htr).
      destruct (IH _ Hws' Hpos') as (IHs & IHt & IHp).
      rewrite IHs, IHt, Hs, Htr.
      split; [|split; [|exact IHp]];
        destruct (snd (checkAudio true t l)); cbn [count_ended]; lia. }
  intros l' n. subst l' n.
  destruct (Hgen (CallInterface.startListening true log) eq_refl
                 (List.Forall_nil _)) as (Hs & Ht & Hp).
  split; [exact Hs|]. split; [exact Ht|]. split; [exact Hp|discriminate].
Qed.

Lemma one_blob_per_turn_witness :
  length (sent (fst (passes true (CallInterface.startListening true [])
                            (click ++ click)))) = 2%nat
  /\ length (sent (fst (passes false (CallInterface.startListening true [])
                               (click ++ click)))) = 0%nat.
Proof.
  split.
  - apply (one_blob_per_turn true [] (click ++ click)).
    repeat constructor.
  - rewrite (proj1 (one_blob_per_turn false [] (click ++ click)
                      ltac:(repeat constructor))).
    reflexivity.
Defined.

(** X5.  Silence before any speech leaves no trace: the refs, the recorder,
    the chunk list, the socket and the transcript are as they were, and no
    signal is emitted; a loop whose closure reads the call as connected
    keeps requesting its next frame, one whose closure reads it as
    disconnected does not even do that. *)
Theorem leading_silence_is_discarded (connected : bool) (ticks : list Tick)
    (l : Listener) :
  isRecording l = false ->
  Forall (fun t => isSpeechDetected t = false) ticks ->
  fst (passes connected l ticks)
  = match ticks with
    | [] => l
    | _ :: _ => if connected then set_frame true l else l
    end
  /\ signals connected l ticks = repeat none (length ticks).
Proof.
  destruct connected.
  2: { intros _ _. unfold signals. rewrite passes_disconnected.
       split; [destruct ticks; reflexivity|reflexivity]. }
  intros Hr Hsil; revert l Hr.
  induction Hsil as [|t ticks Ht _ IH]; intros l Hr; [auto|].
  rewrite final_cons, signals_cons, (pass_idle_silence t l Hr Ht).
  cbn [fst snd length repeat].
  destruct (IH (set_frame true l) Hr) as (IHf & IHs).
  rewrite IHf, IHs. split; [|reflexivity].
  destruct ticks; reflexivity.
Qed.

Lemma leading_silence_is_discarded_witness :
  signals true (CallInterface.startListening true []) (repeat quiet 40)
  = repeat none 40
  /\ fst (passes false (CallInterface.startListening true []) (repeat quiet 40))
     = CallInterface.startListening true [].
Proof.
  split.
  - apply (leading_silence_is_discarded true (repeat quiet 40)
             (CallInterface.startListening true [])).
    + reflexivity.
    + repeat constructor.
  - apply (leading_silence_is_discarded false (repeat quiet 40)
             (CallInterface.startListening true [])).
    + reflexivity.
    + repeat constructor.
Defined.

End ListenerFacts.

Module HandlerFacts.
Import CallInterface CallInterfaceHandlers CallInterfaceFacts.

(** X6.  [endCall] is idempotent, and the [close] event it provokes changes
    nothing but the ready state of the socket: the call state stays at Call
    ended and the recorder, the stream and the frames stay as [endCall]
    left them. *)
Theorem endCall_idempotent (c c' : Component) :
  endCall false c = Some c' ->
  endCall false c' = Some c' /\ ws_onclose c' = socket_becomes CLOSED c'.
Proof.
  rewrite endCall_eq. intros [= <-].
  assert (forall r, ws_close (ws_close r) = ws_close r) as Hclose
    by (intros []; reflexivity).
  split.
  - rewrite endCall_eq.
    cbn [animationFrameRef mediaRecorderRef isRecordingRef callState
         websocketRef streamRef requestedFrames].
    destruct (websocketRef c) as [w|], (streamRef c) as [ts|],
             (mediaRecorderRef c) as [r|], (animationFrameRef c) as [id|];
      cbn [fmap option_fmap option_map]; rewrite ?Hclose, ?map_map;
      try (destruct (id =? 0)%N); rewrite ?filter_again; reflexivity.
  - unfold ws_onclose. rewrite stopListening_eq. unfold socket_becomes, setCallState.
    cbn [animationFrameRef mediaRecorderRef isRecordingRef callState
         websocketRef streamRef requestedFrames].
    destruct (websocketRef c) as [w|], (streamRef c) as [ts|],
             (mediaRecorderRef c) as [r|], (animationFrameRef c) as [id|];
      cbn [fmap option_fmap option_map default animationFrameRef
           mediaRecorderRef isRecordingRef callState websocketRef streamRef
           requestedFrames set_websocket set_callState isSpeaking];
      try (destruct (id =? 0)%N); rewrite ?filter_again; reflexivity.
Qed.

Lemma endCall_idempotent_witness :
  endCall false (default initial (endCall false (startCall (Started [live]) initial)))
  = Some (default initial (endCall false (startCall (Started [live]) initial))).
Proof.
  apply (endCall_idempotent (startCall (Started [live]) initial)).
  reflexivity.
Defined.

Lemma handle_flags_agree (e : Handler) (c : Component) :
  flags_agree c -> flags_agree (handle e c).
Proof.
  unfold flags_agree. intros Hc.
  destruct e as [o| |is_blob| | |connected t frame|]; cbn [handle].
  - destruct o as [|tracks]; cbn; [exact Hc|].
    intros Hl. destruct (Hc Hl) as (Hs & _). split; [exact Hs|]. split; eexists; reflexivity.
  - unfold ws_onopen, socket_becomes, setCallState.
    destruct (websocketRef c) eqn:Hw; cbn; intros Hl;
      destruct (Hc Hl) as (Hs & Hst & Hws);
      (split; [exact Hs|]); (split; [exact Hst|]);
      first [eexists; reflexivity | rewrite Hw; exact Hws].
  - destruct is_blob; [|exact Hc]. cbn. discriminate.
  - cbn. exact Hc.
  - unfold ws_onclose. rewrite stopListening_eq. cbn. discriminate.
  - unfold audio_onended. destruct connected; [|exact Hc].
    unfold CallInterfaceHandlers.startListening, setCallState.
    cbn [streamRef websocketRef set_callState].
    destruct (streamRef c) as [ts|] eqn:Hst, (websocketRef c) as [w|] eqn:Hws.
    + destruct (isSpeechDetected t); cbn; rewrite ?Hst, ?Hws; intros _;
        (split; [reflexivity|]); split; eexists; reflexivity.
    + cbn. rewrite Hws. intros Hl. destruct (Hc Hl) as (_ & _ & [x Hx]). discriminate.
    + cbn. rewrite Hst. intros Hl. destruct (Hc Hl) as (_ & [x Hx] & _). discriminate.
    + cbn. rewrite Hst. intros Hl. destruct (Hc Hl) as (_ & [x Hx] & _). discriminate.
  - rewrite endCall_eq. cbn. discriminate.
Qed.

(** X7.  Whatever the order of the socket events, the end of playback and
    the buttons, the call state never shows listening and speaking at once,
    and it shows listening only while a microphone stream and a socket
    exist. *)
Theorem listening_excludes_speaking (events : list Handler) :
  isListening (callState (run events initial)) = true ->
  isSpeaking (callState (run events initial)) = false
  /\ is_Some (streamRef (run events initial))
  /\ is_Some (websocketRef (run events initial)).
Proof.
  change (flags_agree (run events initial)).
  assert (flags_agree initial) as H0 by (intros H; discriminate H).
  revert H0. generalize initial as c.
  induction events as [|e events IH]; intros c Hc; [exact Hc|].
  unfold run in *. cbn [fold_left]. apply IH, handle_flags_agree, Hc.
Qed.

Lemma listening_excludes_speaking_witness :
  isSpeaking (callState (run greeting_heard initial)) = false.
Proof.
  apply (listening_excludes_speaking greeting_heard).
  reflexivity.
Defined.

End HandlerFacts.

Module PageFacts.
Import CallInterface CallInterfaceHandlers CallInterfacePage CallInterfaceFacts.

(** A handler that only sets the call state keeps the loop as it is. *)
Lemma setCallState_never_listened (f : CallState -> CallState) (c : Component) :
  never_listened c ->
  isListening (f (callState c)) = false ->
  never_listened (setCallState f c).
Proof.
  intros (_ & Hr & Ha & Hf & Hi) Hl. unfold never_listened.
  destruct c; cbn in *. auto.
Qed.

Lemma handle_never_listened (e : Handler) (c : Component) :
  match e with
  | AudioEnded connected _ _ => connected = false
  | _ => True
  end ->
  never_listened c -> never_listened (handle e c).
Proof.
  intros He Hc. pose proof Hc as (Hl & Hr & Ha & Hf & Hi).
  destruct e as [o| |is_blob| | |connected t frame|]; cbn [handle].
  - unfold startCall. destruct o as [|tracks].
    + apply setCallState_never_listened;
        [apply setCallState_never_listened|]; cbn; assumption.
    + unfold never_listened, setCallState. destruct c; cbn in *. auto.
  - unfold ws_onopen, socket_becomes.
    destruct (websocketRef c) eqn:Hw;
      (apply setCallState_never_listened; [|cbn; assumption]);
      [|exact Hc].
    unfold never_listened. destruct c; cbn in *. auto.
  - unfold ws_onmessage. destruct is_blob; [|exact Hc].
    apply setCallState_never_listened; [exact Hc|reflexivity].
  - unfold ws_onerror. apply setCallState_never_listened; [exact Hc|exact Hl].
  - unfold ws_onclose. rewrite stopListening_eq. unfold socket_becomes.
    destruct (websocketRef c) eqn:Hw; unfold never_listened, setCallState;
      cbn; rewrite ?Hr, ?Ha, ?Hf, ?Hi; auto.
  - subst connected. exact Hc.
  - rewrite endCall_eq. unfold never_listened. cbn.
    rewrite ?Hr, ?Ha, ?Hf, ?Hi. auto.
Qed.

Lemma on_page_never_listened (e : PageEvent) (p : Page) :
  isConnected (closure p) = false -> never_listened (component p) ->
  isConnected (closure (on_page e p)) = false
  /\ never_listened (component (on_page e p)).
Proof.
  intros Hcl Hc. destruct e as [o| | |is_blob| | |t frame]; cbn [on_page].
  - destruct (isConnected (callState (component p))) eqn:Hconn; [auto|].
    cbn [closure component]. split; [exact Hconn|].
    apply handle_never_listened; [exact I|exact Hc].
  - destruct (isConnected (callState (component p))); [|auto].
    cbn [closure component]. split; [exact Hcl|].
    apply handle_never_listened; [exact I|exact Hc].
  - split; [exact Hcl|]. apply handle_never_listened; [exact I|exact Hc].
  - split; [exact Hcl|]. apply handle_never_listened; [exact I|exact Hc].
  - split; [exact Hcl|]. apply handle_never_listened; [exact I|exact Hc].
  - split; [exact Hcl|]. apply handle_never_listened; [exact I|exact Hc].
  - split; [exact Hcl|]. cbn [component].
    apply handle_never_listened; [exact Hcl|exact Hc].
Qed.

(** The greeting has been heard to its end: the call is connected, and
    the component still shows the agent speaking. *)
Lemma greeting_heard_in_page :
  callState (component (browse greeted loaded))
  = mkCallState true false true "Clinic agent speaking...".
Proof. reflexivity. Qed.

(** X19.  In the page, listening never starts.  Whatever the caller clicks
    and whatever the socket and the player do, the handlers of a call read
    [callState.isConnected] as it was when Call Clinic was clicked, that is
    false: [audio.onended] does not call [startListening], so the Listening
    indicator stays off, no recorder is created, no frame is requested and
    the detector's flag stays off; a pass of [checkAudio], if one ran, would
    return at its first line; and [endCall], finding no recorder, returns
    also where stopping an inactive recorder throws. *)
Theorem listening_never_starts (events : list PageEvent) :
  let p := browse events loaded in
  isConnected (closure p) = false
  /\ never_listened (component p)
  /\ (forall (t : Tick) (l : Listener),
        checkAudio (isConnected (closure p)) t l = (l, none))
  /\ (forall legacy : bool,
        endCall legacy (component p) = endCall false (component p)).
Proof.
  intros p.
  assert (isConnected (closure p) = false /\ never_listened (component p))
    as [Hcl Hc].
  { subst p.
    assert (isConnected (closure loaded) = false
            /\ never_listened (component loaded)) as H0
      by (unfold never_listened; cbn; repeat split; reflexivity).
    revert H0. generalize loaded as q.
    induction events as [|e events IH]; intros q [Hq1 Hq2]; [auto|].
    unfold browse in *. cbn [fold_left].
    apply IH, on_page_never_listened; assumption. }
  split; [exact Hcl|]. split; [exact Hc|]. split.
  - intros t l. rewrite Hcl. reflexivity.
  - intros legacy. apply endCall_without_recorder. apply Hc.
Qed.

End PageFacts.

Module AppRunFacts.
Import App AppRuns.

(** X8.  However the request for a session goes, initialisation installs a
    session identifier that enables the Call button: the server's when it
    granted one, the fallback otherwise; and it records an error exactly
    when the creation failed. *)
Theorem session_always_installed (r : SessionResponse) (now : Z) (a : App) :
  call_button_disabled (initializeSession r now a) = false
  /\ sessionId (initializeSession r now a)
     = (if creation_failed r then Some ("fallback-" ++ show now)%string
        else granted r)
  /\ (sessionError (initializeSession r now a) = None <-> creation_failed r = false).
Proof.
  unfold call_button_disabled.
  destruct r as [message|ok code body]; cbn [initializeSession creation_failed granted].
  - cbn. split; [reflexivity|]. split; [reflexivity|]. split; discriminate.
  - destruct ok; cbn [negb orb].
    + destruct body as [message|session_id].
      * cbn. split; [reflexivity|]. split; [reflexivity|]. split; discriminate.
      * destruct (truthy session_id) eqn:Ht; cbn [negb].
        -- cbn. rewrite Ht. split; [reflexivity|]. split; [reflexivity|].
           split; reflexivity.
        -- cbn. split; [reflexivity|]. split; [reflexivity|]. split; discriminate.
    + cbn. split; [reflexivity|]. split; [reflexivity|]. split; discriminate.
Qed.

Lemma run_timer_tracks (cb : TimerCallback) (a : App) :
  isListening a = micCapturing a ->
  isListening (run_timer cb a) = micCapturing (run_timer cb a)
  /\ sessionId (run_timer cb a) = sessionId a.
Proof.
  intros H. destruct cb; unfold run_timer, playVoiceResponse, speak.
  - destruct (utterances _); cbn; auto.
  - cbn. auto.
Qed.

Lemma fire_due_tracks (fuel : list (Z * TimerCallback)) (a : App) :
  isListening a = micCapturing a ->
  isListening (fire_due fuel a) = micCapturing (fire_due fuel a)
  /\ sessionId (fire_due fuel a) = sessionId a.
Proof.
  revert a; induction fuel as [|x fuel IH]; intros a H; [auto|].
  cbn [fire_due]. destruct (timers a) as [|[d cb] rest]; [auto|].
  destruct (d <=? clock a)%Z; [|auto].
  destruct (run_timer_tracks cb (set_timers rest a) H) as (H1 & H2).
  destruct (IH _ H1) as (H3 & H4). rewrite H4, H2. auto.
Qed.

Lemma step_tracks (e : Event) (a : App) :
  isListening a = micCapturing a ->
  isListening (step e a) = micCapturing (step e a)
  /\ sessionId (step e a) = sessionId a.
Proof.
  intros H. destruct e as [ms| | | | |text]; cbn [step].
  - unfold elapse. apply (fire_due_tracks _ (set_clock _ a)), H.
  - destruct (isInCall a || call_button_disabled a); [auto|].
    unfold handleStartCall. destruct (negb (truthy (sessionId a))); cbn; auto.
  - destruct (isInCall a); cbn; auto.
  - destruct (isInCall a && isListening a); cbn; auto.
  - unfold utterance_end. destruct (utterances a) as [|u rest]; [auto|].
    destruct rest; cbn; auto.
  - unfold handleResponseReceived, playVoiceResponse, speak.
    destruct (utterances _); cbn; auto.
Qed.

(** X9.  On the call screen the Listening flag is set exactly while the
    microphone is open, whatever happens, and no event changes the session
    identifier. *)
Theorem listening_flag_tracks_microphone (events : list Event) (a : App) :
  isListening a = micCapturing a ->
  isListening (run events a) = micCapturing (run events a)
  /\ sessionId (run events a) = sessionId a.
Proof.
  revert a; induction events as [|e events IH]; intros a H; [auto|].
  unfold run in *. cbn [fold_left].
  destruct (step_tracks e a H) as (H1 & H2).
  destruct (IH _ H1) as (H3 & H4). rewrite H4, H2. auto.
Qed.

Lemma listening_flag_tracks_microphone_witness :
  isListening (run call_again ready) = micCapturing (run call_again ready).
Proof.
  apply (listening_flag_tracks_microphone call_again ready).
  reflexivity.
Defined.




End AppRunFacts.

Module ConsolePanelFacts.
Import ConsolePanel.

Lemma slice_last_length {A : Type} (n : nat) (l : list A) :
  length (slice_last n l) = Nat.min n (length l).
Proof. unfold slice_last. rewrite length_drop. lia. Qed.

Lemma push_slice (message : string) (log : list string) :
  push message log = slice_last 51 (log ++ [message]).
Proof.
  unfold push, slice_last. rewrite length_app. cbn [length].
  replace (length log + 1 - 51)%nat with (length log - 50)%nat by lia.
  rewrite drop_app_le by lia. reflexivity.
Qed.

Lemma slice_last_app {A : Type} (n : nat) (l m : list A) :
  slice_last n (slice_last n l ++ m) = slice_last n (l ++ m).
Proof.
  unfold slice_last. rewrite !length_app, length_drop.
  destruct (Nat.le_gt_cases (length l) n) as [Hle|Hgt].
  - replace (length l - n)%nat with 0%nat by lia. cbn [drop].
    f_equal. lia.
  - replace (length l - (length l - n) + length m - n)%nat
      with (length m) by lia.
    replace (length l + length m - n)%nat
      with ((length l - n) + length m)%nat by lia.
    rewrite <- drop_drop. rewrite (drop_app_le l m) by lia. reflexivity.
Qed.

(** X11.  The console of the page holds the most recent messages, in order,
    and never more than 51 of them: each call keeps the last 50 and appends
    its own. *)
Theorem console_keeps_latest (calls : list Call) (log : list string) :
  (length log <= 51)%nat ->
  run calls log = slice_last 51 (log ++ map message_of calls)
  /\ (length (run calls log) <= 51)%nat.
Proof.
  intros Hlen.
  assert (run calls log = slice_last 51 (log ++ map message_of calls)) as ->.
  { revert log Hlen; induction calls as [|c calls IH]; intros log Hlen.
    - cbn. rewrite app_nil_r. unfold slice_last.
      replace (length log - 51)%nat with 0%nat by lia. reflexivity.
    - unfold run in *. cbn [fold_left map]. unfold console at 2.
      rewrite IH by (rewrite push_slice, slice_last_length; lia).
      rewrite push_slice, slice_last_app, <- app_assoc. reflexivity. }
  split; [reflexivity|]. rewrite slice_last_length. lia.
Qed.

Lemma console_keeps_latest_witness :
  (length (run (repeat (mkCall Error ["backend"; "unreachable"]) 60) []) <= 51)%nat.
Proof.
  apply (console_keeps_latest (repeat (mkCall Error ["backend"; "unreachable"]) 60) []).
  cbn. lia.
Defined.

End ConsolePanelFacts.

Module VoiceAgentRunFacts.
Import VoiceAgent VoiceAgentRuns.

(** *** [trim] *)

Section StripFacts.

Variable w1 : ascii -> bool.
Variable w2 : ascii -> ascii -> bool.
Variable w3 : ascii -> ascii -> ascii -> bool.

Lemma strip_fixed (s : list ascii) :
  starts_with_space w1 w2 w3 s = false -> strip w1 w2 w3 s = s.
Proof.
  destruct s as [|a [|b [|c s]]]; cbn [starts_with_space strip]; intros H;
    repeat match goal with
           | H : _ || _ = false |- _ => apply orb_false_elim in H as [? ?]
           end;
    repeat match goal with
           | H : ?x = false |- context [if ?x then _ else _] => rewrite H
           end; reflexivity.
Qed.

(** What is cut off is a prefix, and nothing is left to cut. *)
Lemma strip_spec (n : nat) (s : list ascii) :
  (length s <= n)%nat ->
  starts_with_space w1 w2 w3 (strip w1 w2 w3 s) = false
  /\ exists sp, s = sp ++ strip w1 w2 w3 s.
Proof.
  revert s; induction n as [|n IH]; intros s Hn.
  - destruct s; [|cbn in Hn; lia]. split; [reflexivity|exists []; reflexivity].
  - destruct s as [|a s1]; [split; [reflexivity|exists []; reflexivity]|].
    cbn [length] in Hn. cbn [strip].
    destruct (w1 a) eqn:H1.
    { destruct (IH s1 ltac:(lia)) as (Hs & sp & Hsp).
      split; [exact Hs|]. exists (a :: sp). cbn [app]. f_equal. exact Hsp. }
    destruct s1 as [|b s2].
    { split; [cbn; rewrite H1; reflexivity|exists []; reflexivity]. }
    cbn [length] in Hn.
    destruct (w2 a b) eqn:H2.
    { destruct (IH s2 ltac:(lia)) as (Hs & sp & Hsp).
      split; [exact Hs|]. exists (a :: b :: sp). cbn [app]. do 2 f_equal.
      exact Hsp. }
    destruct s2 as [|c s3].
    { split; [cbn; rewrite H1, H2; reflexivity|exists []; reflexivity]. }
    cbn [length] in Hn.
    destruct (w3 a b c) eqn:H3.
    { destruct (IH s3 ltac:(lia)) as (Hs & sp & Hsp).
      split; [exact Hs|]. exists (a :: b :: c :: sp). cbn [app]. do 3 f_equal.
      exact Hsp. }
    split; [cbn; rewrite H1, H2, H3; reflexivity|exists []; reflexivity].
Qed.

Lemma strip_none (s : list ascii) :
  starts_with_space w1 w2 w3 (strip w1 w2 w3 s) = false.
Proof. exact (proj1 (strip_spec (length s) s (le_n _))). Qed.

Lemma strip_split (s : list ascii) : exists sp, s = sp ++ strip w1 w2 w3 s.
Proof. exact (proj2 (strip_spec (length s) s (le_n _))). Qed.

Lemma strip_again (s : list ascii) :
  strip w1 w2 w3 (strip w1 w2 w3 s) = strip w1 w2 w3 s.
Proof. apply strip_fixed, strip_none. Qed.

(** Bytes that do not start with white space when extended do not start
    with it themselves. *)
Lemma starts_with_space_app (s x : list ascii) :
  starts_with_space w1 w2 w3 (s ++ x) = false ->
  starts_with_space w1 w2 w3 s = false.
Proof.
  destruct s as [|a [|b [|c s]]]; cbn [app starts_with_space]; intros H;
    try reflexivity;
    repeat match goal with
           | H : _ || _ = false |- _ => apply orb_false_elim in H as [? ?]
           end;
    repeat match goal with
           | H : ?x = false |- context [?x] => rewrite H
           end; reflexivity.
Qed.

End StripFacts.

(** Trimming the end keeps the beginning trimmed. *)
Lemma trim_end_keeps_start (l : list ascii) :
  starts_with_space is_space is_space2 is_space3 l = false ->
  starts_with_space is_space is_space2 is_space3 (trim_end l) = false.
Proof.
  intros H. unfold trim_end.
  destruct (strip_split is_space (fun c b => is_space2 b c)
                        (fun c b a => is_space3 a b c) (rev l)) as [sp Hsp].
  apply (f_equal (@rev ascii)) in Hsp.
  rewrite rev_involutive, rev_app_distr in Hsp.
  rewrite Hsp in H. exact (starts_with_space_app _ _ _ _ _ H).
Qed.

Lemma trim_end_again (l : list ascii) : trim_end (trim_end l) = trim_end l.
Proof. unfold trim_end. rewrite rev_involutive, strip_again. reflexivity. Qed.

Lemma trim_again (s : string) : trim (trim s) = trim s.
Proof.
  unfold trim. rewrite list_ascii_of_string_of_list_ascii.
  unfold trim_start at 1.
  rewrite strip_fixed by apply trim_end_keeps_start, strip_none.
  rewrite trim_end_again. reflexivity.
Qed.

(** X12.  A transcript that [transcribeAudio] resolves with is the trimmed
    concatenation of the parts the recogniser delivered, each followed by a
    space; it is never empty, and no white space of [String.prototype.trim]
    (Unicode spaces and line terminators included) is left at either end:
    trimming it again changes nothing.  A recogniser that is missing or
    fails never resolves. *)
Theorem transcript_is_trimmed (r : Recognition) (t : string) :
  transcribeAudio r = Resolved t ->
  t <> ""%string /\ trim t = t
  /\ exists parts,
       r = RecognitionEnded parts
       /\ t = trim (fold_left (fun acc part => acc ++ part ++ " ") parts "")%string.
Proof.
  destruct r as [|code|parts]; cbn [transcribeAudio]; try discriminate.
  destruct (String.eqb _ "") eqn:He; [discriminate|].
  intros [= <-]. apply String.eqb_neq in He.
  split; [exact He|]. split; [apply trim_again|eauto].
Qed.

Lemma transcript_is_trimmed_witness :
  transcribeAudio (RecognitionEnded heard)
  = Resolved "I need an appointment"
  /\ trim "I need an appointment" = "I need an appointment"%string.
Proof.
  assert (transcribeAudio (RecognitionEnded heard)
          = Resolved "I need an appointment") as H by (vm_compute; reflexivity).
  split; [exact H|].
  exact (proj1 (proj2 (transcript_is_trimmed _ _ H))).
Defined.

(** *** Cycles *)

Ltac pipeline_cases c :=
  unfold pipeline;
  destruct (transcribeAudio (recognition c)) as [transcript|reason];
  [unfold sendMessage; cbn [sessionId stopRecording log_transcribe set_recorder];
   match goal with
   | |- context [String.eqb ?s ""] => destruct (String.eqb s "")
   end;
   [|destruct (chat c) as [err|[reply|]];
     [|cbn [truthy];
       match goal with
       | |- context [String.eqb ?s ""] => destruct (String.eqb s "")
       end;
       [|unfold speakText; destruct (speech c);
         unfold startConversation, startRecording; destruct (micOk c)]|]]|];
  cbn; rewrite ?length_app; cbn.

Lemma pipeline_transcribes (c : Cycle) (h : Hook) :
  transcribeRequests (pipeline c h) = transcribeRequests h ++ [audioBlob c]
  /\ messages (pipeline c h) = messages h
  /\ sessionId (pipeline c h) = sessionId h.
Proof.
  destruct h as [st ms sid er pr ra ia ls tr cr sp].
  pipeline_cases c; auto.
Qed.

Lemma pipeline_in_step (c : Cycle) (h : Hook) :
  (length (spoken h) <= length (chatRequests h))%nat ->
  (length (chatRequests h) <= length (transcribeRequests h))%nat ->
  in_step (pipeline c (set_interval false h)).
Proof.
  destruct h as [st ms sid er pr ra ia ls tr cr sp]. unfold in_step.
  cbn [spoken chatRequests transcribeRequests]. intros H1 H2.
  pipeline_cases c; repeat split; auto; try lia; try discriminate.
Qed.

Lemma on_interval_in_step (t : IntervalTick) (h : Hook) :
  in_step h -> in_step (on_interval t h).
Proof.
  intros Hin. unfold on_interval.
  destruct (intervalActive h) eqn:Harmed; [|exact Hin].
  unfold checkSilence. destruct (sound_detected _ _).
  - destruct h as [st ms sid er pr ra ia ls tr cr sp]. exact Hin.
  - destruct (_ <? _)%Z; [|exact Hin].
    destruct Hin as (H1 & H2 & _). apply pipeline_in_step; assumption.
Qed.

Lemma on_event_in_step (e : HookEvent) (h : Hook) :
  in_step h -> in_step (on_event e h).
Proof.
  intros Hin. destruct e as [t|]; cbn [on_event].
  - destruct (intervalActive h && negb (recorderActive h)) eqn:Hstopped;
      [|apply on_interval_in_step, Hin].
    apply andb_prop in Hstopped as [Harmed Hrec].
    apply negb_true_iff in Hrec.
    destruct h as [st ms sid er pr ra ia ls tr cr sp].
    cbn [intervalActive recorderActive] in Harmed, Hrec. subst ia ra.
    unfold checkSilence_stopped.
    destruct (sound_detected _ _); [exact Hin|].
    destruct (_ <? _)%Z; [|exact Hin].
    destruct Hin as (H1 & H2 & _). unfold in_step. cbn.
    repeat split; auto; discriminate.
  - destruct h as [st ms sid er pr ra ia ls tr cr sp].
    destruct Hin as (H1 & H2 & _ & H4). unfold in_step. cbn.
    repeat split; auto; try discriminate; apply H4; assumption.
Qed.

(** X13.  In every run of a conversation, with the page calling the exported
    [stopRecording] whenever it likes between the ticks of the silence
    check, the requests stay in step: no message is posted to the backend
    without a transcription request before it, and nothing is spoken without
    a posted message; the recorder runs only while the silence check is
    armed, and while that is armed the state is [listening]. *)
Theorem requests_in_step (events : list HookEvent) (mic_ok : bool) (now : Z)
    (session : string) :
  in_step (drive events (startConversation mic_ok now (initialized session))).
Proof.
  assert (in_step (startConversation mic_ok now (initialized session))) as H0.
  { unfold in_step. destruct mic_ok; cbn; repeat split; auto; discriminate. }
  revert H0. generalize (startConversation mic_ok now (initialized session)) as h.
  induction events as [|e events IH]; intros h Hh; [exact Hh|].
  unfold drive in *. cbn [fold_left]. apply IH, on_event_in_step, Hh.
Qed.

Lemma on_interval_keeps (t : IntervalTick) (h : Hook) :
  messages (on_interval t h) = messages h
  /\ sessionId (on_interval t h) = sessionId h.
Proof.
  unfold on_interval, checkSilence.
  destruct (intervalActive h); [|auto].
  destruct (sound_detected _ _); [destruct h; auto|].
  destruct (_ <? _)%Z; [|auto].
  destruct (pipeline_transcribes (cycle t) (set_interval false h)) as (_ & Hm & Hs).
  rewrite Hm, Hs. destruct h; auto.
Qed.

(** X14.  No run of the hook writes its [messages] list or changes its
    session identifier: the history the hook exposes stays as it was. *)
Theorem hook_never_records_messages (ticks : list IntervalTick) (h : Hook) :
  messages (run ticks h) = messages h /\ sessionId (run ticks h) = sessionId h.
Proof.
  revert h; induction ticks as [|t ticks IH]; intros h; [auto|].
  unfold run in *. cbn [fold_left].
  destruct (IH (on_interval t h)) as (H1 & H2).
  destruct (on_interval_keeps t h) as (H3 & H4).
  rewrite H1, H2, H3, H4. auto.
Qed.

(** *** The silence check *)

Lemma on_interval_sound (t : IntervalTick) (h : Hook) :
  intervalActive h = true -> has_sound t = true ->
  on_interval t h = set_lastSoundTime (at_time t) h.
Proof.
  intros Ha Hs. unfold on_interval, checkSilence. rewrite Ha.
  unfold has_sound in Hs. rewrite Hs. reflexivity.
Qed.

Lemma on_interval_pause (t : IntervalTick) (h : Hook) :
  intervalActive h = true -> has_sound t = false ->
  (at_time t - lastSoundTime h <= SILENCE_DURATION)%Z ->
  on_interval t h = h.
Proof.
  intros Ha Hs Ht. unfold on_interval, checkSilence. rewrite Ha.
  unfold has_sound in Hs. rewrite Hs.
  destruct (Z.ltb_spec SILENCE_DURATION (at_time t - lastSoundTime h));
    [lia|reflexivity].
Qed.

Lemma on_interval_stop (t : IntervalTick) (h : Hook) :
  intervalActive h = true -> has_sound t = false ->
  (SILENCE_DURATION < at_time t - lastSoundTime h)%Z ->
  on_interval t h = pipeline (cycle t) (set_interval false h).
Proof.
  intros Ha Hs Ht. unfold on_interval, checkSilence. rewrite Ha.
  unfold has_sound in Hs. rewrite Hs.
  destruct (Z.ltb_spec SILENCE_DURATION (at_time t - lastSoundTime h));
    [reflexivity|lia].
Qed.

Lemma run_short_pauses (ticks : list IntervalTick) (h : Hook) :
  intervalActive h = true ->
  pauses_within (lastSoundTime h) ticks ->
  run ticks h = set_lastSoundTime (last_sound (lastSoundTime h) ticks) h.
Proof.
  revert h; induction ticks as [|t ticks IH]; intros h Ha Hp.
  - cbn. destruct h; reflexivity.
  - unfold run, last_sound in *. cbn [fold_left pauses_within] in *.
    destruct (has_sound t) eqn:Hs.
    + rewrite (on_interval_sound t h Ha Hs).
      rewrite (IH (set_lastSoundTime (at_time t) h) Ha Hp).
      destruct h; reflexivity.
    + destruct Hp as [Ht Hp]. rewrite (on_interval_pause t h Ha Hs Ht).
      exact (IH h Ha Hp).
Qed.



(** X16.  A cycle that gets a transcript and a non-empty reply posts exactly
    that transcript, speaks exactly that reply and, whether the synthesis
    succeeds or not, starts recording again with the silence check armed
    from the restart time. *)
Theorem answered_turn_restarts (c : Cycle) (h : Hook) (transcript reply : string) :
  transcribeAudio (recognition c) = Resolved transcript ->
  String.eqb (sessionId h) "" = false ->
  chat c = ChatReplied (Some reply) ->
  String.eqb reply "" = false ->
  micOk c = true ->
  let h' := pipeline c h in
  chatRequests h' = chatRequests h ++ [transcript]
  /\ spoken h' = spoken h ++ [reply]
  /\ state h' = listening /\ recorderActive h' = true
  /\ intervalActive h' = true /\ lastSoundTime h' = restartedAt c.
Proof.
  intros Ht Hs Hc Hr Hm. unfold pipeline. rewrite Ht.
  destruct h as [st ms sid er pr ra ia ls tr cr sp]. cbn [sessionId] in Hs.
  unfold sendMessage, stopRecording, log_transcribe, set_recorder.
  cbn [sessionId]. rewrite Hs, Hc. cbn [truthy]. rewrite Hr. cbn [negb default].
  unfold speakText, startConversation, startRecording.
  destruct (speech c); rewrite Hm; cbn; auto 10.
Qed.

Lemma answered_turn_restarts_witness :
  spoken (pipeline voice_down (startConversation true 0 (initialized "session-1")))
  = ["Of course."].
Proof.
  apply (answered_turn_restarts voice_down
           (startConversation true 0 (initialized "session-1"))
           "I need an appointment" "Of course.");
    reflexivity.
Defined.

(** *** Where the silence check ends the turn *)

Lemma signals_app (a b : list IntervalTick) (h : Hook) :
  signals (a ++ b) h = signals a h ++ signals b (run a h).
Proof.
  revert h; induction a as [|t a IH]; intros h; [reflexivity|].
  cbn [app signals]. rewrite IH. reflexivity.
Qed.

Lemma signals_length (ticks : list IntervalTick) (h : Hook) :
  length (signals ticks h) = length ticks.
Proof.
  revert h; induction ticks as [|t ticks IH]; intros h; [reflexivity|].
  cbn [signals length]. rewrite IH. reflexivity.
Qed.

(** While the pauses are short no tick ends the turn. *)
Lemma signals_short_pauses (ticks : list IntervalTick) (h : Hook) :
  intervalActive h = true ->
  pauses_within (lastSoundTime h) ticks ->
  Forall (fun s => s = none) (signals ticks h).
Proof.
  revert h; induction ticks as [|t ticks IH]; intros h Ha Hp; [constructor|].
  cbn [signals pauses_within] in *. destruct (has_sound t) eqn:Hs.
  - constructor.
    + unfold turn_signal. rewrite (on_interval_sound t h Ha Hs).
      destruct h; cbn [transcribeRequests set_lastSoundTime].
      rewrite Nat.ltb_irrefl. reflexivity.
    + rewrite (on_interval_sound t h Ha Hs).
      apply IH; destruct h; assumption.
  - destruct Hp as [Ht Hp]. constructor.
    + unfold turn_signal. rewrite (on_interval_pause t h Ha Hs Ht).
      rewrite Nat.ltb_irrefl. reflexivity.
    + rewrite (on_interval_pause t h Ha Hs Ht). apply IH; assumption.
Qed.

(** The tick that finds the silence too long ends the turn. *)
Lemma turn_signal_stop (t : IntervalTick) (h : Hook) :
  intervalActive h = true -> has_sound t = false ->
  (SILENCE_DURATION < at_time t - lastSoundTime h)%Z ->
  turn_signal t h = turnEnded.
Proof.
  intros Ha Hs Ht. unfold turn_signal. rewrite (on_interval_stop t h Ha Hs Ht).
  destruct (pipeline_transcribes (cycle t) (set_interval false h)) as (Htr & _).
  rewrite Htr, length_app. destruct h; cbn [transcribeRequests set_interval length].
  destruct (Nat.ltb_spec (length transcribeRequests0)
                         (length transcribeRequests0 + 1)); [reflexivity|lia].
Qed.

(** C1.  VAD finalization in the hook.  While it records, for every tick
    sequence with at least MIN_SPEECH_DURATION of sound in which no silent
    tick comes later than SILENCE_DURATION after the most recent sound
    (after the start of the recording, before the first sound), followed by
    a silent tick that does come later than that, the silence check ends
    the turn exactly once: at that tick, the first at which the silence
    exceeds SILENCE_DURATION, and at no tick before it.  (The bound on the
    sound is part of the property as specified; what happens below it is
    the matter of C5.) *)
Theorem vad_finalization (h : Hook) (pre : list IntervalTick) (t : IntervalTick) :
  recorderActive h = true ->
  intervalActive h = true ->
  (MIN_SPEECH_DURATION <= sound_duration pre)%Z ->
  pauses_within (lastSoundTime h) pre ->
  has_sound t = false ->
  (SILENCE_DURATION < at_time t - last_sound (lastSoundTime h) pre)%Z ->
  forall i : nat,
    signals (pre ++ [t]) h !! i = Some turnEnded <-> i = length pre.
Proof.
  intros _ Ha _ Hp Hs Ht i.
  pose proof (signals_short_pauses pre h Ha Hp) as Hnone.
  rewrite signals_app, (run_short_pauses pre h Ha Hp). cbn [signals].
  rewrite turn_signal_stop; [|destruct h; exact Ha|exact Hs|destruct h; exact Ht].
  destruct (Nat.lt_total i (length pre)) as [Hlt|[Heq|Hgt]].
  - rewrite lookup_app_l by (rewrite signals_length; exact Hlt).
    split; [|lia]. intros Hl. exfalso.
    rewrite Forall_forall in Hnone.
    assert (turnEnded = none) as Hbad; [|discriminate Hbad].
    apply Hnone. apply list_elem_of_lookup. exists i. exact Hl.
  - subst i. rewrite lookup_app_r by (rewrite signals_length; lia).
    rewrite signals_length, Nat.sub_diag. split; reflexivity.
  - rewrite lookup_app_r by (rewrite signals_length; lia).
    rewrite signals_length.
    destruct (i - length pre)%nat as [|k] eqn:Hk; [lia|].
    split; [intros Hl; discriminate Hl|lia].
Qed.

(** Half a second of speech and 1.6 s of silence: the turn ends at the
    sixteenth silent tick. *)
Lemma vad_finalization_witness :
  signals (speech_then_silence ++ [quiet_tick answered 2100])
          (startConversation true 0 (initialized "session-1"))
    !! 20%nat = Some turnEnded.
Proof.
  apply (vad_finalization (startConversation true 0 (initialized "session-1"))
           speech_then_silence (quiet_tick answered 2100)).
  - reflexivity.
  - reflexivity.
  - vm_compute. discriminate.
  - vm_compute. repeat split; discriminate.
  - vm_compute. reflexivity.
  - vm_compute. reflexivity.
  - reflexivity.
Defined.

(** Half a second of speech followed by silence that reaches
    SILENCE_DURATION: no tick of the sequence ends the turn, the last one,
    at which the silence has lasted 1500 ms, included; the recording goes
    on. *)
Lemma silence_of_exactly_the_threshold :
  let h0 := startConversation true 0 (initialized "session-1") in
  (MIN_SPEECH_DURATION <= sound_duration half_second_of_speech)%Z
  /\ Forall (fun t => has_sound t = false) threshold_of_silence
  /\ (SILENCE_DURATION <= silence_duration threshold_of_silence)%Z
  /\ signals (half_second_of_speech ++ threshold_of_silence) h0 = repeat none 20
  /\ recorderActive (run (half_second_of_speech ++ threshold_of_silence) h0) = true
  /\ transcribeRequests (run (half_second_of_speech ++ threshold_of_silence) h0)
     = [].
Proof.
  intros h0. subst h0.
  split; [vm_compute; discriminate|].
  split; [repeat constructor|].
  split; [vm_compute; discriminate|].
  split; [vm_compute; reflexivity|].
  split; vm_compute; reflexivity.
Qed.

(** *** What the hook keeps of a conversation *)







End VoiceAgentRunFacts.

Module DetectionFacts.
Import Router.

(** X17.  [_determine_provider] follows a fixed priority: ollama whenever
    its variable is set, groq only when ollama's is not, openai only when
    neither is; it raises exactly when none of the three variables is
    set. *)
Theorem determine_provider_priority (environ : gmap string string) :
  let ollama := is_set (getenv environ "OLLAMA_BASE_URL") in
  let groq := is_set (getenv environ "GROQ_API_KEY") in
  let openai := is_set (getenv environ "OPENAI_API_KEY") in
  (_determine_provider environ = Return "ollama" <-> ollama = true)
  /\ (_determine_provider environ = Return "groq"
      <-> ollama = false /\ groq = true)
  /\ (_determine_provider environ = Return "openai"
      <-> ollama = false /\ groq = false /\ openai = true)
  /\ ((exists exn msg, _determine_provider environ = Raise exn msg)
      <-> ollama = false /\ groq = false /\ openai = false).
Proof.
  intros ollama groq openai. unfold _determine_provider.
  fold ollama groq openai.
  destruct ollama, groq, openai; cbn [negb];
    repeat split; intros;
    repeat match goal with
           | H : _ /\ _ |- _ => destruct H
           | H : ex _ |- _ => destruct H
           end;
    try discriminate; try congruence; eauto.
Qed.

Lemma is_set_insert_empty (environ : gmap string string) (k name : string) :
  is_set (getenv (<[k:=""%string]> environ) name)
  = is_set (getenv (delete k environ) name).
Proof.
  unfold getenv. destruct (decide (k = name)) as [->|Hne].
  - rewrite lookup_insert_eq, lookup_delete_eq. reflexivity.
  - rewrite lookup_insert_ne, lookup_delete_ne by assumption. reflexivity.
Qed.

(** X18.  The detection consults nothing but the three variables, and a
    variable set to the empty string counts as not set. *)
Theorem determine_provider_ignores
    (environ : gmap string string) (k v : string) :
  (k <> "OLLAMA_BASE_URL"%string -> k <> "GROQ_API_KEY"%string ->
   k <> "OPENAI_API_KEY"%string ->
   _determine_provider (<[k:=v]> environ) = _determine_provider environ)
  /\ _determine_provider (<[k:=""%string]> environ)
     = _determine_provider (delete k environ).
Proof.
  split.
  - intros H1 H2 H3. unfold _determine_provider, getenv.
    rewrite !lookup_insert_ne by assumption. reflexivity.
  - unfold _determine_provider. rewrite !is_set_insert_empty. reflexivity.
Qed.

Lemma determine_provider_ignores_witness :
  _determine_provider (<["TTS_PROVIDER":="gtts"%string]> ∅)
  = _determine_provider (∅ : gmap string string).
Proof.
  apply (determine_provider_ignores ∅ "TTS_PROVIDER" "gtts");
    intros H; discriminate H.
Defined.

End DetectionFacts.
